(** * check_resources: Nagios checks for OpenStack resources

    A shallow embedding of [src/files/plugins/check_resources.py] and the
    properties of its selector ([_resource_filter]), result aggregator
    ([Results.add_result]), reporter ([nagios_output]) and argument checks
    ([parse_arguments]), and of [OSCHelper.get_os_credentials] of
    [src/lib/lib_openstack_service_checks.py].

    Python values are modelled as follows: [str] as [string], [int] as [Z],
    [Set[str]] as [gset string], [Dict[str, str]] as [gmap string string],
    [Optional[T]] as [option T], a generator of resources as the finite list
    of the resources it yields, and the mutable [Results] object by explicit
    state passing.  The module logger has no handler configured, so the
    [logger.debug] calls are not observable and are left out. *)

From Stdlib Require Import Ascii.
From stdpp Require Import base numbers gmap strings list sorting pretty.

Local Open Scope Z_scope.

(** ** Python values *)

(** The values an attribute of a resource (or the [status] argument of
    [add_result]) can hold: [None] or a [str]. *)
Inductive pyval : Type :=
  | PyNone
  | PyStr (s : string).

Global Instance pyval_eq_dec : EqDecision pyval.
Proof. solve_decision. Defined.

(** Truth value of a Python object: [None] and the empty string are falsy. *)
Definition truthy (v : pyval) : bool :=
  match v with
  | PyNone => false
  | PyStr s => bool_decide (s ≠ "")
  end.

(** [str(v)], as used by [str.format] for a [{}] field. *)
Definition str (v : pyval) : string :=
  match v with
  | PyNone => "None"
  | PyStr s => s
  end.

(** [os.linesep] on the POSIX hosts the plugin is deployed to. *)
Definition linesep : string := String (Ascii.ascii_of_nat 10) "".

(** [sep.join(ls)] *)
Definition join (sep : string) (ls : list string) : string := String.concat sep ls.

(** ** Constants of the module *)

Definition OK_MESSAGE (a b : nat) : string := pretty a +:+ "/" +:+ pretty b +:+ " passed".
Definition WARNING_MESSAGE (a b : nat) : string := pretty a +:+ "/" +:+ pretty b +:+ " in UNKNOWN".
Definition DOWN_MESSAGE (a b : nat) : string := pretty a +:+ "/" +:+ pretty b +:+ " are DOWN".
Definition NOT_FOUND_MESSAGE (a b : nat) : string :=
  pretty a +:+ "/" +:+ pretty b +:+ " were not found".

Definition NAGIOS_STATUS_OK : Z := 0.
Definition NAGIOS_STATUS_WARNING : Z := 1.
Definition NAGIOS_STATUS_CRITICAL : Z := 2.
Definition NAGIOS_STATUS_UNKNOWN : Z := 3.

(** ** Resources and the cloud connection *)

(** A resource record of the cloud API: its identifier and its other named
    attributes. *)
Record Resource : Type := {
  resource_id : string;
  attributes : gmap string pyval
}.

(** [getattr(resource, name, default)]; the identifier is the attribute
    [id]. *)
Definition getattr (resource : Resource) (name : string) (default : pyval) : pyval :=
  if decide (name = "id") then PyStr (resource_id resource)
  else match attributes resource !! name with
       | Some v => v
       | None => default
       end.

(** What the enumeration calls of an [openstack] connection return. *)
Record Connection : Type := {
  network_networks : list Resource;
  network_ips : list Resource;
  compute_servers : list Resource;
  network_ports : list Resource;
  network_security_groups : list Resource;
  network_subnets : list Resource
}.

(** The dispatch table [RESOURCES]; [None] is a missing key. *)
Definition RESOURCES (resource_type : string) : option (Connection → list Resource) :=
  if decide (resource_type = "network") then Some network_networks
  else if decide (resource_type = "floating-ip") then Some network_ips
  else if decide (resource_type = "server") then Some compute_servers
  else if decide (resource_type = "port") then Some network_ports
  else if decide (resource_type = "security-group") then Some network_security_groups
  else if decide (resource_type = "subnet") then Some network_subnets
  else None.

Definition RESOURCES_BY_EXISTENCE : list string := ["security-group"; "subnet"; "network"].

(** ** class Results *)

Record Results : Type := {
  exit_code : Z;
  ok : list string;
  warning : list string;
  critical : list string;
  not_found : list string;
  _messages : list (Z * string)
}.

(** [Results.__init__] *)
Definition Results_init : Results :=
  {| exit_code := 0; ok := []; warning := []; critical := []; not_found := [];
     _messages := [] |}.

(** Order of Python on the [(exit_code, message)] tuples: by exit code, then
    by message, strings being compared character by character. *)
Definition entry_le (a b : Z * string) : Prop :=
  a.1 < b.1 ∨ (a.1 = b.1 ∧ String.le a.2 b.2).

Global Instance entry_le_dec : RelDecision entry_le.
Proof. intros a b. unfold entry_le. apply _. Defined.

(** [sorted(l, reverse=True)] on such tuples. *)
Definition sorted_reverse (l : list (Z * string)) : list (Z * string) :=
  merge_sort (flip entry_le) l.

(** Property [Results.messages] *)
Definition messages (self : Results) : list string :=
  (λ e : Z * string, e.2) <$> sorted_reverse (_messages self).

(** Property [Results.count] *)
Definition count (self : Results) : nat := length (_messages self).

(** The three message formats of [add_result]. *)
Definition status_message (type_ id_ : string) (status : pyval) : string :=
  type_ +:+ " '" +:+ id_ +:+ "' is in " +:+ str status +:+ " status".
Definition exists_message (type_ id_ : string) : string :=
  type_ +:+ " '" +:+ id_ +:+ "' exists".
Definition not_found_message (type_ id_ : string) : string :=
  type_ +:+ " '" +:+ id_ +:+ "' was not found".

(** The branch [add_result] takes: the bucket the identifier is appended to,
    the exit code and the message. *)
Inductive bucket : Type := BOk | BWarning | BCritical | BNotFound.

Global Instance bucket_eq_dec : EqDecision bucket.
Proof. solve_decision. Defined.

Definition classify (type_ id_ : string) (status : pyval) (exists_ : bool)
  : bucket * Z * string :=
  if decide (status = PyStr "ACTIVE") then
    (BOk, NAGIOS_STATUS_OK, status_message type_ id_ status)
  else if decide (status = PyStr "DOWN") then
    (BCritical, NAGIOS_STATUS_CRITICAL, status_message type_ id_ status)
  else if negb (truthy status) && exists_
          && bool_decide (type_ ∈ RESOURCES_BY_EXISTENCE) then
    (BOk, NAGIOS_STATUS_OK, exists_message type_ id_)
  else if negb exists_ then
    (BNotFound, NAGIOS_STATUS_CRITICAL, not_found_message type_ id_)
  else
    (BWarning, NAGIOS_STATUS_WARNING, status_message type_ id_ status).

(** [self.<bucket>.append(id_)] *)
Definition bucket_append (self : Results) (b : bucket) (id_ : string) : Results :=
  match b with
  | BOk =>
      {| exit_code := exit_code self; ok := ok self ++ [id_]; warning := warning self;
         critical := critical self; not_found := not_found self;
         _messages := _messages self |}
  | BWarning =>
      {| exit_code := exit_code self; ok := ok self; warning := warning self ++ [id_];
         critical := critical self; not_found := not_found self;
         _messages := _messages self |}
  | BCritical =>
      {| exit_code := exit_code self; ok := ok self; warning := warning self;
         critical := critical self ++ [id_]; not_found := not_found self;
         _messages := _messages self |}
  | BNotFound =>
      {| exit_code := exit_code self; ok := ok self; warning := warning self;
         critical := critical self; not_found := not_found self ++ [id_];
         _messages := _messages self |}
  end.

(** [Results.add_result(type_, id_, status=None, exists=True)] *)
Definition add_result (self : Results) (type_ id_ : string) (status : pyval)
    (exists_ : bool) : Results :=
  let '(b, code, message) := classify type_ id_ status exists_ in
  let self := bucket_append self b id_ in
  {| exit_code := Z.max code (exit_code self);
     ok := ok self; warning := warning self; critical := critical self;
     not_found := not_found self;
     _messages := _messages self ++ [(code, message)] |}.

(** ** _resource_filter *)

(** The inner loop over the items of [select].  Its [continue] resumes this
    loop with the next item, so the loop runs to its end on every resource
    and hands control back to the statement after it. *)
Fixpoint select_loop (resource : Resource) (items : list (string * string)) : unit :=
  match items with
  | [] => tt
  | (key, value) :: items =>
      if decide (getattr resource key PyNone ≠ PyStr value)
      then select_loop resource items
      else select_loop resource items
  end.

(** One iteration of the outer loop: [None] when it ends in [continue],
    [Some resource] when it reaches [yield resource]. *)
Definition filter_step (ids : gset string) (skip : gset string) (check_all : bool)
    (select : option (gmap string string)) (resource : Resource) : option Resource :=
  if negb check_all && bool_decide (resource_id resource ∉ ids) then None
  else if check_all && bool_decide (resource_id resource ∈ skip) then None
  else if check_all then
    let 'tt := select_loop resource (map_to_list (default ∅ select)) in
    Some resource
  else Some resource.

Definition _resource_filter (resources : list Resource) (ids : gset string)
    (skip : option (gset string)) (check_all : bool)
    (select : option (gmap string string)) : list Resource :=
  let skip := default ∅ skip in
  omap (filter_step ids skip check_all select) resources.

(** ** Reporter *)

(** [_create_title] *)
Definition _create_title (resource : string) (results : Results) : string :=
  let titles := [] in
  let titles :=
    if bool_decide (not_found results ≠ [])
    then titles ++ [NOT_FOUND_MESSAGE (length (not_found results)) (count results)]
    else titles in
  let titles :=
    if bool_decide (critical results ≠ [])
    then titles ++ [DOWN_MESSAGE (length (critical results)) (count results)]
    else titles in
  let titles :=
    if bool_decide (warning results ≠ [])
    then titles ++ [WARNING_MESSAGE (length (warning results)) (count results)]
    else titles in
  let titles :=
    if bool_decide (ok results ≠ [])
    then titles ++ [OK_MESSAGE (length (ok results)) (count results)]
    else titles in
  resource +:+ "s " +:+ join ", " titles.

(** The exceptions of [nagios_plugin3]. *)
Inductive nagios_error : Type := WarnError | CriticalError | UnknownError.

(** How a call ends: it returns after writing [text] to standard output, or
    it raises an exception carrying [text]. *)
Inductive outcome : Type :=
  | Printed (text : string)
  | Raised (e : nagios_error) (text : string).

(** [print(a, b)]: the arguments separated by a space, then a newline. *)
Definition print2 (a b : string) : string := a +:+ " " +:+ b +:+ linesep.

(** The branch of the [if]/[elif] chain of [nagios_output]. *)
Inductive report_branch : Type :=
  | ReportOk | ReportWarning | ReportCritical | ReportUnknown | ReportInvalid.

Global Instance report_branch_eq_dec : EqDecision report_branch.
Proof. solve_decision. Defined.

Definition nagios_branch (code : Z) : report_branch :=
  if decide (code = NAGIOS_STATUS_OK) then ReportOk
  else if decide (code = NAGIOS_STATUS_WARNING) then ReportWarning
  else if decide (code = NAGIOS_STATUS_CRITICAL) then ReportCritical
  else if decide (code = NAGIOS_STATUS_UNKNOWN) then ReportUnknown
  else ReportInvalid.

(** The text [output] that every branch of [nagios_output] reports. *)
Definition nagios_text (resource : string) (results : Results) : string :=
  let messages := join linesep (messages results) in
  let title := _create_title resource results in
  title +:+ linesep +:+ messages.

Definition nagios_output (resource : string) (results : Results) : outcome :=
  let output := nagios_text resource results in
  match nagios_branch (exit_code results) with
  | ReportOk => Printed (print2 "OK: " output)
  | ReportWarning => Raised WarnError ("WARNING: " +:+ output)
  | ReportCritical => Raised CriticalError ("CRITICAL: " +:+ output)
  | ReportUnknown => Raised UnknownError ("UNKNOWN: " +:+ output)
  | ReportInvalid =>
      Raised UnknownError
        ("UNKNOWN: not valid exit_code " +:+ pretty (exit_code results) +:+ " " +:+ output)
  end.

(** ** check *)

(** Body of the first loop of [check]: one filtered resource. *)
Definition check_resource (resource_type : string) (results : Results)
    (resource : Resource) : Results :=
  if bool_decide (resource_type ∉ RESOURCES_BY_EXISTENCE) then
    let resource_status := getattr resource "status" (PyStr "UNKNOWN") in
    add_result results resource_type (resource_id resource) resource_status true
  else
    add_result results resource_type (resource_id resource) PyNone true.

(** Body of the second loop of [check]: one requested identifier. *)
Definition check_id (resource_type : string) (checked_ids : list string)
    (results : Results) (id_ : string) : Results :=
  if bool_decide (id_ ∉ checked_ids)
  then add_result results resource_type id_ PyNone false
  else results.

(** The two loops of [check] over the enumerated [resources]; a set is
    iterated in the order of its [elements]. *)
Definition check_results (resource_type : string) (resources : list Resource)
    (ids : gset string) (skip : option (gset string))
    (select : option (gmap string string)) (check_all : bool) : Results :=
  let results := Results_init in
  let filtered := _resource_filter resources ids skip check_all select in
  let checked_ids := resource_id <$> filtered in
  let results := foldl (check_resource resource_type) results filtered in
  foldl (check_id resource_type checked_ids) results (elements ids).

(** [check]; [None] is the [KeyError] of a resource type that is not in
    [RESOURCES]. *)
Definition check (connection : Connection) (resource_type : string) (ids : gset string)
    (skip : option (gset string)) (select : option (gmap string string))
    (check_all : bool) : option outcome :=
  match RESOURCES resource_type with
  | None => None
  | Some enumerate =>
      let resources := enumerate connection in
      Some (nagios_output resource_type
              (check_results resource_type resources ids skip select check_all))
  end.

(** Modelled from the spec: [nagios_plugin3.try_check], a function of an
    external library whose source is not in the repository.  A call that
    returns leaves the process to exit with 0; [WarnError] exits with 1,
    [CriticalError] with 2, [UnknownError] and any other fault with 3. *)
Definition try_check (result : option outcome) : Z :=
  match result with
  | Some (Printed _) => 0
  | Some (Raised WarnError _) => 1
  | Some (Raised CriticalError _) => 2
  | Some (Raised UnknownError _) => 3
  | None => 3
  end.

(** What the run shows: the printed text, or the message of the exception. *)
Definition rendered (o : outcome) : string :=
  match o with
  | Printed text => text
  | Raised _ text => text
  end.

(** ** Sample data *)

Definition mk_resource (i : string) (attrs : list (string * pyval)) : Resource :=
  {| resource_id := i; attributes := list_to_map attrs |}.

Definition cloud_of_servers (l : list Resource) : Connection :=
  {| network_networks := []; network_ips := []; compute_servers := l;
     network_ports := []; network_security_groups := []; network_subnets := [] |}.

(** ** Sequences of [add_result] calls *)

(** The arguments of one [add_result] call. *)
Record call : Type := {
  call_type : string;
  call_id : string;
  call_status : pyval;
  call_exists : bool
}.

(** The entry a call appends to [_messages]. *)
Definition entry_of_call (c : call) : Z * string :=
  let '(_, code, message) :=
    classify (call_type c) (call_id c) (call_status c) (call_exists c) in
  (code, message).

(** A [Results] object after the given calls, in order. *)
Definition add_results (self : Results) (calls : list call) : Results :=
  foldl (λ r c, add_result r (call_type c) (call_id c) (call_status c) (call_exists c))
        self calls.

(** The maximum of the exit codes of a list of entries, from [OK] up. *)
Definition max_severity (l : list (Z * string)) : Z :=
  foldr (λ e m, Z.max e.1 m) NAGIOS_STATUS_OK l.

(** The severities of the specification and their Nagios codes. *)
Inductive severity : Type := OK | WARNING | CRITICAL | UNKNOWN.

Definition severity_code (s : severity) : Z :=
  match s with
  | OK => 0
  | WARNING => 1
  | CRITICAL => 2
  | UNKNOWN => 3
  end.

Global Instance severity_eq_dec : EqDecision severity.
Proof. solve_decision. Defined.

(** The classification rules as the specification words them, in priority
    order; a status is absent when it is [None] or empty (Python's
    [not status]). *)
Inductive entry_kind : Type := InStatus | Exists | WasNotFound.

Definition no_status (status : pyval) : bool :=
  match status with
  | PyNone => true
  | PyStr s => bool_decide (s = "")
  end.

Definition spec_classify (status : pyval) (exists_ existence_only : bool)
  : severity * entry_kind :=
  if bool_decide (status = PyStr "ACTIVE") then (OK, InStatus)
  else if bool_decide (status = PyStr "DOWN") then (CRITICAL, InStatus)
  else if no_status status && exists_ && existence_only then (OK, Exists)
  else if negb exists_ then (CRITICAL, WasNotFound)
  else (WARNING, InStatus).

(** The message text of each kind of entry. *)
Definition spec_message (kind : entry_kind) (type_ id_ : string) (status : pyval) : string :=
  match kind with
  | InStatus => type_ +:+ " '" +:+ id_ +:+ "' is in " +:+ str status +:+ " status"
  | Exists => type_ +:+ " '" +:+ id_ +:+ "' exists"
  | WasNotFound => type_ +:+ " '" +:+ id_ +:+ "' was not found"
  end.

(** The bucket of [Results] a kind of entry of a given severity belongs to. *)
Definition spec_bucket (sev : severity) (kind : entry_kind) : bucket :=
  match kind, sev with
  | WasNotFound, _ => BNotFound
  | _, OK => BOk
  | _, WARNING => BWarning
  | _, _ => BCritical
  end.

(** The identifiers of a bucket. *)
Definition bucket_ids (self : Results) (b : bucket) : list string :=
  match b with
  | BOk => ok self
  | BWarning => warning self
  | BCritical => critical self
  | BNotFound => not_found self
  end.

(** The number of occurrences of [x] in [l]. *)
Definition occurrences {A} `{EqDecision A} (x : A) (l : list A) : nat :=
  length (filter (λ y, y = x) l).

(** The [add_result] call [check] makes for a filtered resource, and the one
    it makes for a requested identifier that was not checked. *)
Definition resource_call (resource_type : string) (resource : Resource) : call :=
  if bool_decide (resource_type ∉ RESOURCES_BY_EXISTENCE) then
    {| call_type := resource_type; call_id := resource_id resource;
       call_status := getattr resource "status" (PyStr "UNKNOWN"); call_exists := true |}
  else
    {| call_type := resource_type; call_id := resource_id resource;
       call_status := PyNone; call_exists := true |}.

Definition id_call (resource_type id_ : string) : call :=
  {| call_type := resource_type; call_id := id_; call_status := PyNone;
     call_exists := false |}.

(** The bucket a call appends its identifier to. *)
Definition call_bucket (c : call) : bucket :=
  (classify (call_type c) (call_id c) (call_status c) (call_exists c)).1.1.

(** A resource whose [subnet] attribute differs from the selected one. *)
Definition port_on_other_subnet : Resource :=
  mk_resource "p1" [("status", PyStr "ACTIVE"); ("subnet", PyStr "net-b")].

(** The calls [check] makes, in order: one for each filtered resource, then
    one for each requested identifier that is not among them. *)
Definition check_calls (resource_type : string) (resources : list Resource)
    (ids : gset string) (skip : option (gset string))
    (select : option (gmap string string)) (check_all : bool) : list call :=
  let filtered := _resource_filter resources ids skip check_all select in
  (resource_call resource_type <$> filtered)
  ++ (id_call resource_type
        <$> filter (λ i, i ∉ resource_id <$> filtered) (elements ids)).

(** A cloud whose only server is "a", ACTIVE, and the request for "a" and
    "b". *)
Definition servers_a : list Resource := [mk_resource "a" [("status", PyStr "ACTIVE")]].
Definition ids_a_b : gset string := {["a"; "b"]}.

(** Two ports, the first of them DOWN, and a subnet with a status attribute. *)
Definition ports_x_y : list Resource :=
  [mk_resource "x" [("status", PyStr "DOWN")];
   mk_resource "y" [("status", PyStr "ACTIVE")]].
Definition subnet_with_status : Resource :=
  mk_resource "s1" [("status", PyStr "DOWN")].

(** The results of a run in which every check passed. *)
Definition results_all_ok : Results :=
  check_results "server" servers_a {["a"]} None None false.

(** One DOWN port among ACTIVE ones. *)
Definition calls_one_down : list call :=
  [ {| call_type := "port"; call_id := "p1"; call_status := PyStr "ACTIVE";
       call_exists := true |};
    {| call_type := "port"; call_id := "p2"; call_status := PyStr "DOWN";
       call_exists := true |};
    {| call_type := "port"; call_id := "p3"; call_status := PyStr "ACTIVE";
       call_exists := true |} ].

(** Three entries added in the order OK, CRITICAL, WARNING. *)
Definition calls_mixed : list call :=
  [ {| call_type := "server"; call_id := "a"; call_status := PyStr "ACTIVE";
       call_exists := true |};
    {| call_type := "server"; call_id := "b"; call_status := PyStr "DOWN";
       call_exists := true |};
    {| call_type := "server"; call_id := "c"; call_status := PyStr "ERROR";
       call_exists := true |} ].

(** ** parse_arguments and main *)

(** The namespace [parser.parse_args()] returns: the positional [resource],
    the [--all] flag and the values collected by the [append] options
    [--id], [--skip-id] and [--select]. *)
Record Namespace : Type := {
  ns_resource : string;
  ns_all : bool;
  ns_id : list string;
  ns_skip_id : list string;
  ns_select : list string
}.

(** How [parse_arguments] ends: [parser.error(message)], the [ValueError] of
    [dict] on a [--select] value without "=", or the returned tuple. *)
Inductive parsed : Type :=
  | ParserError (message : string)
  | ValueError
  | Parsed (resource : string) (ids : gset string) (skip : gset string)
      (select : gmap string string) (check_all : bool).

(** [arg.split("=", 1)]: the texts before and after the first "=", or [None]
    when there is no "=" and the split has one element. *)
Fixpoint split_once (arg : string) : option (string * string) :=
  match arg with
  | EmptyString => None
  | String c rest =>
      if decide (c = "="%char) then Some (EmptyString, rest)
      else match split_once rest with
           | Some (key, value) => Some (String c key, value)
           | None => None
           end
  end.

(** [dict(arg.split("=", 1) for arg in items)], the pairs entering [d] in
    order. *)
Fixpoint dict_of_items (items : list string) (d : gmap string string)
  : option (gmap string string) :=
  match items with
  | [] => Some d
  | arg :: items =>
      match split_once arg with
      | Some (key, value) => dict_of_items items (<[key := value]> d)
      | None => None
      end
  end.

(** The checks of [parse_arguments] on the parsed namespace. *)
Definition parse_arguments (args : Namespace) : parsed :=
  if decide (RESOURCES (ns_resource args) = None) then
    ParserError ("'" +:+ ns_resource args +:+ "' resource is not supported")
  else if ns_all args && bool_decide (ns_resource args ∈ RESOURCES_BY_EXISTENCE) then
    ParserError ("flag '--all' is not supported with resource " +:+ ns_resource args)
  else if ns_all args && bool_decide (ns_id args ≠ []) then
    ParserError "--all/--id' are mutually exclusive"
  else if negb (ns_all args) && bool_decide (ns_id args = []) then
    ParserError "at least one of --all/--id' parameters must be entered"
  else if negb (ns_all args) && bool_decide (ns_skip_id args ≠ []) then
    ParserError "'--skip-id' must be used with '--all'"
  else if negb (ns_all args) && bool_decide (ns_select args ≠ []) then
    ParserError "'--select' must be used with '--all'"
  else
    match dict_of_items (ns_select args) ∅ with
    | None => ValueError
    | Some select =>
        Parsed (ns_resource args) (list_to_set (ns_id args))
          (list_to_set (ns_skip_id args)) select (ns_all args)
    end.

(** How a run of [main] ends: the usage error of the parser, the exception
    of [parse_arguments] that nothing catches, or the exit code [try_check]
    gives the check. *)
Inductive run_result : Type :=
  | UsageError (message : string)
  | Uncaught
  | Exit (code : Z).

(** What the calls of [check] on the cloud give: [openstack.connect] or the
    enumeration of the resources raises an exception of the SDK, or the
    cloud answers with its resources. *)
Inductive cloud : Type :=
  | CloudFault
  | CloudAnswers (connection : Connection).

(** [check] on such a cloud.  A fault of the cloud ends [check] with an
    exception that is none of [nagios_plugin3], as the [KeyError] does, and
    before anything is reported. *)
Definition check_cloud (c : cloud) (resource_type : string) (ids : gset string)
    (skip : option (gset string)) (select : option (gmap string string))
    (check_all : bool) : option outcome :=
  match c with
  | CloudFault => None
  | CloudAnswers connection => check connection resource_type ids skip select check_all
  end.

(** [main] *)
Definition main (c : cloud) (args : Namespace) : run_result :=
  match parse_arguments args with
  | ParserError message => UsageError message
  | ValueError => Uncaught
  | Parsed resource ids skip select check_all =>
      Exit (try_check (check_cloud c resource ids (Some skip) (Some select) check_all))
  end.

(** [check] with the identifiers iterated in a given order: a Python set
    fixes no order for the loop [for id_ in ids]. *)
Definition check_results_in (order : list string) (resource_type : string)
    (resources : list Resource) (ids : gset string) (skip : option (gset string))
    (select : option (gmap string string)) (check_all : bool) : Results :=
  let results := Results_init in
  let filtered := _resource_filter resources ids skip check_all select in
  let checked_ids := resource_id <$> filtered in
  let results := foldl (check_resource resource_type) results filtered in
  foldl (check_id resource_type checked_ids) results order.

(** Sample namespaces. *)
Definition ns_all_servers : Namespace :=
  {| ns_resource := "server"; ns_all := true; ns_id := []; ns_skip_id := ["x"];
     ns_select := ["subnet=net-a"] |}.
Definition ns_all_subnets : Namespace :=
  {| ns_resource := "subnet"; ns_all := true; ns_id := []; ns_skip_id := [];
     ns_select := [] |}.
Definition ns_bad_select : Namespace :=
  {| ns_resource := "port"; ns_all := true; ns_id := []; ns_skip_id := [];
     ns_select := ["subnet"] |}.

(** ** OSCHelper.get_os_credentials

    From [src/lib/lib_openstack_service_checks.py].  The argument is the
    dictionary [config_flags_parser] returns for the [os-credentials]
    option, from option names to their values. *)

(** The values of the returned dictionary: [None], an [int] or a [str]. *)
Inductive cred_value : Type :=
  | CNone
  | CInt (n : Z)
  | CStr (s : string).

Global Instance cred_value_eq_dec : EqDecision cred_value.
Proof. solve_decision. Defined.

(** How [get_os_credentials] ends: [OSCCredentialsError(message)], a
    [KeyError] of an indexing, or the returned dictionary. *)
Inductive creds_result : Type :=
  | OSCCredentialsError (message : string)
  | KeyError
  | Creds (creds : gmap string cred_value).

(** [sub in s] on strings. *)
Fixpoint contains (sub s : string) : bool :=
  String.prefix sub s
  || match s with
     | EmptyString => false
     | String _ rest => contains sub rest
     end.

(** [s.lstrip(chars)], [s.rstrip(chars)] and [s.strip(chars)]. *)
Fixpoint lstrip (chars : list ascii) (s : string) : string :=
  match s with
  | EmptyString => EmptyString
  | String c rest => if bool_decide (c ∈ chars) then lstrip chars rest else s
  end.

Fixpoint rstrip (chars : list ascii) (s : string) : string :=
  match s with
  | EmptyString => EmptyString
  | String c rest =>
      match rstrip chars rest with
      | EmptyString => if bool_decide (c ∈ chars) then EmptyString else String c EmptyString
      | kept => String c kept
      end
  end.

Definition strip (chars : list ascii) (s : string) : string :=
  rstrip chars (lstrip chars s).

(** The two quote characters of the argument of [strip]. *)
Definition quotes : list ascii := [ascii_of_nat 34; ascii_of_nat 39].

Definition common_attrs : list string :=
  ["username"; "password"; "region_name"; "auth_url"; "credentials_project"].

(** [ident_creds.get(k)] as a value of the returned dictionary. *)
Definition get_value (ident_creds : gmap string string) (k : string) : cred_value :=
  match ident_creds !! k with
  | Some v => CStr v
  | None => CNone
  end.

(** [creds.update(dict([(k, ident_creds.get(k)) for k in attrs]))] *)
Definition update_from (ident_creds : gmap string string) (attrs : list string)
    (creds : gmap string cred_value) : gmap string cred_value :=
  foldl (λ c k, <[k := get_value ident_creds k]> c) creds attrs.

Definition get_os_credentials (ident_creds : gmap string string) : creds_result :=
  match ident_creds !! "auth_url" with
  | None => OSCCredentialsError "auth_url is missing"
  | Some auth_url =>
      if bool_decide (auth_url = "") then OSCCredentialsError "auth_url is missing"
      else
        let '(extra_attrs, creds) :=
          if contains "/v3" auth_url
          then (["domain"], ({["auth_version" := CInt 3]} : gmap string cred_value))
          else ([], ∅) in
        let all_attrs := common_attrs ++ extra_attrs in
        let missing := filter (λ k, ident_creds !! k = None) all_attrs in
        if bool_decide (missing ≠ []) then OSCCredentialsError (join ", " missing)
        else
          let ident_creds := <["auth_url" := strip quotes auth_url]> ident_creds in
          let creds :=
            update_from ident_creds
              (filter (λ k, k ∉ ["credentials_project"; "domain"]) all_attrs) creds in
          if bool_decide (extra_attrs ≠ []) then
            match ident_creds !! "credentials_project", ident_creds !! "domain" with
            | Some project, Some domain =>
                Creds (<["project_domain_name" := CStr domain]>
                         (<["user_domain_name" := CStr domain]>
                            (<["project_name" := CStr project]> creds)))
            | _, _ => KeyError
            end
          else
            match ident_creds !! "credentials_project" with
            | Some project => Creds (<["tenant_name" := CStr project]> creds)
            | None => KeyError
            end
  end.

(** Sample credentials for a v3 endpoint whose URL is quoted. *)
Definition ident_creds_v3 : gmap string string :=
  list_to_map [("username", "nagios"); ("password", "secret"); ("region_name", "r1");
               ("auth_url", "'http://10.0.0.1:5000/v3'");
               ("credentials_project", "services"); ("domain", "service_domain")].

(** * Properties *)

Global Instance severity_code_inj : Inj (=) (=) severity_code.
Proof. intros [] [] H; simpl in H; congruence. Qed.

(** ** The order on result entries *)

Global Instance entry_le_refl : Reflexive entry_le.
Proof. intros [c m]. right. split; [done|]. reflexivity. Qed.

Global Instance entry_le_trans : Transitive entry_le.
Proof.
  intros [c1 m1] [c2 m2] [c3 m3]; unfold entry_le; simpl.
  intros [Hlt12 | [-> H12]] [Hlt23 | [-> H23]]; [left; lia .. |].
  right. split; [done|]. by etrans.
Qed.

Global Instance entry_le_antisym : AntiSymm (=) entry_le.
Proof.
  intros [c1 m1] [c2 m2]; unfold entry_le; simpl.
  intros [Hlt12 | [-> H12]] [Hlt21 | [Heq H21]]; try lia.
  f_equal. by apply (anti_symm String.le).
Qed.

Global Instance entry_le_total : Total entry_le.
Proof.
  intros [c1 m1] [c2 m2]; unfold entry_le; simpl.
  destruct (Z.lt_trichotomy c1 c2) as [? | [-> | ?]]; [by left; left | | by right; left].
  destruct (total String.le m1 m2); [left | right]; right; done.
Qed.

Global Instance entry_ge_trans : Transitive (flip entry_le).
Proof. intros a b c Hab Hbc. unfold flip in *. by etrans. Qed.

Global Instance entry_ge_antisym : AntiSymm (=) (flip entry_le).
Proof. intros a b Hab Hba. unfold flip in *. by apply (anti_symm entry_le). Qed.

Global Instance entry_ge_total : Total (flip entry_le).
Proof. intros a b. unfold flip. destruct (total entry_le a b); auto. Qed.

(** [sorted_reverse] returns the entries it was given, in descending order. *)
Lemma sorted_reverse_Permutation (l : list (Z * string)) : sorted_reverse l ≡ₚ l.
Proof. apply merge_sort_Permutation. Qed.

Lemma sorted_reverse_descending (l : list (Z * string)) :
  StronglySorted (flip entry_le) (sorted_reverse l).
Proof. apply (StronglySorted_merge_sort _). Qed.

(** There is one descending arrangement of a list of entries, so the result
    of [sorted_reverse] does not depend on the sorting algorithm. *)
Lemma sorted_reverse_unique (l k : list (Z * string)) :
  k ≡ₚ l → StronglySorted (flip entry_le) k → k = sorted_reverse l.
Proof.
  intros Hperm Hsorted.
  apply (StronglySorted_unique (flip entry_le)); [done | apply sorted_reverse_descending |].
  by rewrite sorted_reverse_Permutation.
Qed.

(** In a descending list an entry at an earlier position is not below one at
    a later position. *)
Lemma StronglySorted_lookup_lt {A} (R : relation A) (l : list A) (i j : nat) (a b : A) :
  StronglySorted R l → (i < j)%nat → l !! i = Some a → l !! j = Some b → R a b.
Proof.
  intros Hsorted. revert i j.
  induction Hsorted as [|x l Hl IH Hx]; intros i j Hij Hi Hj; [done|].
  destruct j as [|j]; [lia|]. simpl in Hj.
  destruct i as [|i]; simpl in Hi.
  - simplify_eq. rewrite Forall_forall in Hx. apply Hx.
    by eapply list_elem_of_lookup_2.
  - apply (IH i j); [lia | done ..].
Qed.


(** ** [add_result] *)

(** The exit code of an entry is [OK], [WARNING] or [CRITICAL]. *)
Lemma classify_code (type_ id_ : string) (status : pyval) (exists_ : bool) :
  (classify type_ id_ status exists_).1.2 ∈ [0; 1; 2].
Proof. unfold classify. repeat case_match; simpl; set_solver. Qed.

Lemma add_result_messages (self : Results) (type_ id_ : string) (status : pyval)
    (exists_ : bool) :
  _messages (add_result self type_ id_ status exists_)
  = _messages self
    ++ [((classify type_ id_ status exists_).1.2, (classify type_ id_ status exists_).2)].
Proof.
  unfold add_result. destruct (classify type_ id_ status exists_) as [[b code] message].
  by destruct b.
Qed.

Lemma add_result_exit_code (self : Results) (type_ id_ : string) (status : pyval)
    (exists_ : bool) :
  exit_code (add_result self type_ id_ status exists_)
  = Z.max (classify type_ id_ status exists_).1.2 (exit_code self).
Proof.
  unfold add_result. destruct (classify type_ id_ status exists_) as [[b code] message].
  by destruct b.
Qed.

Lemma add_result_bucket (self : Results) (type_ id_ : string) (status : pyval)
    (exists_ : bool) (b : bucket) :
  bucket_ids (add_result self type_ id_ status exists_) b
  = if decide (b = (classify type_ id_ status exists_).1.1)
    then bucket_ids self b ++ [id_] else bucket_ids self b.
Proof.
  unfold add_result. destruct (classify type_ id_ status exists_) as [[b' code] message].
  destruct b, b'; simpl; repeat case_decide; done.
Qed.

(** C2: [add_result] is total and follows the priority order of the
    classification rules.  For every status (a string, or [None]), exists
    flag and resource type, the call appends exactly one entry, whose
    severity is one of OK, WARNING and CRITICAL: ACTIVE gives OK, DOWN gives
    CRITICAL, no status on an existing resource of an existence-only type
    gives OK with the message "exists", a resource that does not exist gives
    CRITICAL with "was not found", and everything else gives WARNING.  The
    identifier goes to the one bucket of that entry.  In [check], a resource
    of a type that is not existence-only and that has no status attribute
    gets a WARNING entry whose status reads UNKNOWN. *)
Theorem add_result_total_classification (self : Results) (type_ id_ : string)
    (status : pyval) (exists_ : bool) :
  let existence_only := bool_decide (type_ ∈ RESOURCES_BY_EXISTENCE) in
  let sev := (spec_classify status exists_ existence_only).1 in
  let kind := (spec_classify status exists_ existence_only).2 in
  let r := add_result self type_ id_ status exists_ in
  sev ∈ [OK; WARNING; CRITICAL]
  ∧ _messages r
    = _messages self ++ [(severity_code sev, spec_message kind type_ id_ status)]
  ∧ (∀ sev' m, last (_messages r) = Some (severity_code sev', m) → sev' = sev)
  ∧ (∀ b, bucket_ids r b
          = if decide (b = spec_bucket sev kind)
            then bucket_ids self b ++ [id_] else bucket_ids self b)
  ∧ (∀ resource : Resource,
       type_ ∉ RESOURCES_BY_EXISTENCE →
       attributes resource !! "status" = None →
       _messages (check_resource type_ self resource)
       = _messages self
         ++ [(severity_code WARNING,
              type_ +:+ " '" +:+ resource_id resource +:+ "' is in UNKNOWN status")]
       ∧ warning (check_resource type_ self resource)
         = warning self ++ [resource_id resource]).
Proof.
  intros existence_only sev kind r.
  assert (Hcls : classify type_ id_ status exists_
                 = (spec_bucket sev kind, severity_code sev,
                    spec_message kind type_ id_ status)).
  { subst sev kind existence_only. unfold classify, spec_classify.
    destruct (decide (status = PyStr "ACTIVE")) as [->|Hactive].
    { done. }
    rewrite (bool_decide_eq_false_2 _ Hactive).
    destruct (decide (status = PyStr "DOWN")) as [->|Hdown].
    { done. }
    rewrite (bool_decide_eq_false_2 _ Hdown).
    assert (negb (truthy status) = no_status status) as ->.
    { destruct status as [|s]; [done|]. simpl.
      destruct (decide (s = "")) as [->|Hs]; [done|].
      by rewrite (bool_decide_eq_true_2 _ Hs), (bool_decide_eq_false_2 _ Hs). }
    destruct (no_status status && exists_ && bool_decide (type_ ∈ RESOURCES_BY_EXISTENCE));
      [done|].
    by destruct exists_. }
  assert (Hmsgs : _messages r
    = _messages self ++ [(severity_code sev, spec_message kind type_ id_ status)]).
  { subst r. by rewrite add_result_messages, Hcls. }
  split_and!.
  - subst sev. unfold spec_classify. repeat case_match; simpl; set_solver.
  - done.
  - intros sev' m. rewrite Hmsgs, last_snoc. intros [= Hcode _].
    by apply (inj severity_code).
  - intros b. subst r. by rewrite add_result_bucket, Hcls.
  - intros resource Hty Hstatus. unfold check_resource.
    rewrite (bool_decide_eq_true_2 _ Hty).
    assert (getattr resource "status" (PyStr "UNKNOWN") = PyStr "UNKNOWN") as ->.
    { unfold getattr. rewrite Hstatus. by case_decide. }
    assert (Hunknown : classify type_ (resource_id resource) (PyStr "UNKNOWN") true
                       = (BWarning, NAGIOS_STATUS_WARNING,
                          status_message type_ (resource_id resource) (PyStr "UNKNOWN"))).
    { unfold classify. by rewrite !decide_False by done. }
    rewrite add_result_messages, Hunknown. split; [done|].
    pose proof (add_result_bucket self type_ (resource_id resource) (PyStr "UNKNOWN")
                  true BWarning) as Hb.
    rewrite Hunknown in Hb. exact Hb.
Qed.

(** The classification at a server without a status attribute. *)
Lemma add_result_total_classification_witness :
  ("server" ∉ RESOURCES_BY_EXISTENCE)
  ∧ attributes (mk_resource "s1" []) !! "status" = None
  ∧ _messages (check_resource "server" Results_init (mk_resource "s1" []))
    = [(1, "server 's1' is in UNKNOWN status")]
  ∧ warning (check_resource "server" Results_init (mk_resource "s1" [])) = ["s1"].
Proof.
  assert (Hty : "server" ∉ RESOURCES_BY_EXISTENCE).
  { apply (bool_decide_unpack _). vm_compute. exact I. }
  assert (Hstatus : attributes (mk_resource "s1" []) !! "status" = None) by done.
  split_and!; [exact Hty | exact Hstatus | |].
  - exact (proj1 (proj2 (proj2 (proj2 (proj2
      (add_result_total_classification Results_init "server" "s1" PyNone true))))
      (mk_resource "s1" []) Hty Hstatus)).
  - exact (proj2 (proj2 (proj2 (proj2 (proj2
      (add_result_total_classification Results_init "server" "s1" PyNone true))))
      (mk_resource "s1" []) Hty Hstatus)).
Defined.

(** ** The aggregate severity *)

Lemma add_results_cons (self : Results) (c : call) (calls : list call) :
  add_results self (c :: calls)
  = add_results (add_result self (call_type c) (call_id c) (call_status c) (call_exists c))
      calls.
Proof. done. Qed.

Lemma entry_of_call_classify (c : call) :
  entry_of_call c
  = ((classify (call_type c) (call_id c) (call_status c) (call_exists c)).1.2,
     (classify (call_type c) (call_id c) (call_status c) (call_exists c)).2).
Proof.
  unfold entry_of_call.
  by destruct (classify (call_type c) (call_id c) (call_status c) (call_exists c))
    as [[b code] message].
Qed.

Lemma add_results_messages (self : Results) (calls : list call) :
  _messages (add_results self calls) = _messages self ++ (entry_of_call <$> calls).
Proof.
  revert self. induction calls as [|c calls IH]; intros self.
  - simpl. by rewrite app_nil_r.
  - rewrite add_results_cons, IH, add_result_messages, fmap_cons, entry_of_call_classify.
    by rewrite <-app_assoc.
Qed.

Lemma foldr_max_start (l : list (Z * string)) (a b : Z) :
  foldr (λ e m, Z.max e.1 m) (Z.max a b) l = Z.max a (foldr (λ e m, Z.max e.1 m) b l).
Proof. induction l as [|e l IH]; simpl; [done|]. rewrite IH. lia. Qed.

Lemma add_results_exit_code (self : Results) (calls : list call) :
  exit_code (add_results self calls)
  = foldr (λ e m, Z.max e.1 m) (exit_code self) (entry_of_call <$> calls).
Proof.
  revert self. induction calls as [|c calls IH]; intros self; [done|].
  rewrite add_results_cons, IH, add_result_exit_code, fmap_cons, entry_of_call_classify.
  simpl. rewrite foldr_max_start. lia.
Qed.

Lemma entry_of_call_code (c : call) : (entry_of_call c).1 ∈ [0; 1; 2].
Proof. rewrite entry_of_call_classify. apply classify_code. Qed.

Lemma max_severity_upper (l : list (Z * string)) (e : Z * string) :
  e ∈ l → e.1 ≤ max_severity l.
Proof.
  induction 1 as [e l | e e' l Hin IH]; unfold max_severity in *; simpl; lia.
Qed.

Lemma max_severity_attained (l : list (Z * string)) :
  max_severity l = NAGIOS_STATUS_OK ∨ ∃ e, e ∈ l ∧ e.1 = max_severity l.
Proof.
  induction l as [|e l IH]; [by left|].
  unfold max_severity in *. simpl.
  destruct (Z.max_spec e.1 (foldr (λ e m, Z.max e.1 m) NAGIOS_STATUS_OK l))
    as [[_ ->] | [_ ->]].
  - destruct IH as [IH | (e' & Hin & Heq)]; [by left|].
    right. exists e'. split; [by right | done].
  - right. exists e. split; [by left | done].
Qed.

(** Every exit code a sequence of calls leaves in a fresh [Results] object
    is [OK], [WARNING] or [CRITICAL]. *)
Lemma add_results_exit_code_range (calls : list call) :
  exit_code (add_results Results_init calls) ∈ [0; 1; 2].
Proof.
  rewrite add_results_exit_code. simpl.
  induction calls as [|c calls IH]; simpl; [set_solver|].
  pose proof (entry_of_call_code c) as Hc.
  set (m := foldr _ _ _) in *. clearbody m.
  destruct (Z.max_spec (entry_of_call c).1 m) as [[_ ->] | [_ ->]]; done.
Qed.

(** C3: after any sequence of [add_result] calls on a fresh [Results]
    object, [exit_code] is the maximum of the severities of the entries
    added, under OK < WARNING < CRITICAL and starting from OK: it bounds the
    severity of every entry and, unless it is OK, is the severity of one of
    them.  Hence one CRITICAL entry makes the aggregate CRITICAL, whatever
    the other entries are. *)
Theorem exit_code_is_max_severity (calls : list call) :
  let r := add_results Results_init calls in
  _messages r = entry_of_call <$> calls
  ∧ exit_code r = max_severity (_messages r)
  ∧ (∀ e, e ∈ _messages r → e.1 ≤ exit_code r)
  ∧ (exit_code r = NAGIOS_STATUS_OK ∨ ∃ e, e ∈ _messages r ∧ e.1 = exit_code r)
  ∧ (∀ m, (NAGIOS_STATUS_CRITICAL, m) ∈ _messages r →
          exit_code r = NAGIOS_STATUS_CRITICAL).
Proof.
  intros r.
  assert (Hmsgs : _messages r = entry_of_call <$> calls).
  { subst r. by rewrite add_results_messages. }
  assert (Hmax : exit_code r = max_severity (_messages r)).
  { subst r. by rewrite add_results_exit_code, add_results_messages. }
  split_and!; [done | done | | |].
  - intros e He. rewrite Hmax. by apply max_severity_upper.
  - rewrite Hmax. apply max_severity_attained.
  - intros m Hm.
    pose proof (max_severity_upper _ _ Hm) as Hle. rewrite <-Hmax in Hle. simpl in Hle.
    pose proof (add_results_exit_code_range calls) as Hrange. fold r in Hrange.
    apply list_elem_of_In in Hrange. simpl in Hrange.
    unfold NAGIOS_STATUS_CRITICAL in *. lia.
Qed.

Lemma exit_code_is_max_severity_witness :
  (NAGIOS_STATUS_CRITICAL, "port 'p2' is in DOWN status")
    ∈ _messages (add_results Results_init calls_one_down)
  ∧ exit_code (add_results Results_init calls_one_down) = NAGIOS_STATUS_CRITICAL.
Proof.
  assert (Hin : (NAGIOS_STATUS_CRITICAL, "port 'p2' is in DOWN status")
                  ∈ _messages (add_results Results_init calls_one_down)).
  { apply (bool_decide_unpack _). vm_compute. exact I. }
  split; [exact Hin|].
  exact (proj2 (proj2 (proj2 (proj2 (exit_code_is_max_severity calls_one_down))))
           "port 'p2' is in DOWN status" Hin).
Defined.

(** C9: the last branch of [nagios_output], taken for an exit code outside
    the four Nagios codes, is never reached with a [Results] object that was
    built by [add_result] calls alone: its exit code is 0, 1 or 2. *)
Theorem invalid_exit_code_unreachable (resource : string) (calls : list call) :
  let r := add_results Results_init calls in
  exit_code r ∈ [NAGIOS_STATUS_OK; NAGIOS_STATUS_WARNING; NAGIOS_STATUS_CRITICAL]
  ∧ nagios_branch (exit_code r) ∈ [ReportOk; ReportWarning; ReportCritical]
  ∧ nagios_branch (exit_code r) ≠ ReportInvalid
  ∧ nagios_output resource r
    ≠ Raised UnknownError
        ("UNKNOWN: not valid exit_code " +:+ pretty (exit_code r) +:+ " "
         +:+ nagios_text resource r).
Proof.
  intros r.
  pose proof (add_results_exit_code_range calls) as Hrange. fold r in Hrange.
  assert (Hbranch : nagios_branch (exit_code r) ∈ [ReportOk; ReportWarning; ReportCritical]).
  { apply list_elem_of_In in Hrange. simpl in Hrange.
    destruct Hrange as [<- | [<- | [<- | []]]]; apply (bool_decide_unpack _); done. }
  assert (Hvalid : nagios_branch (exit_code r) ≠ ReportInvalid).
  { intros Heq. rewrite Heq in Hbranch.
    apply list_elem_of_In in Hbranch. simpl in Hbranch.
    by destruct Hbranch as [? | [? | [? | []]]]. }
  split_and!; [done | done | done |].
  unfold nagios_output.
  apply list_elem_of_In in Hbranch. simpl in Hbranch.
  destruct Hbranch as [<- | [<- | [<- | []]]]; discriminate.
Qed.

(** ** The message body *)

Lemma append_nil_l (s : string) : "" +:+ s = s.
Proof. reflexivity. Qed.

Lemma append_cons (a : ascii) (s t : string) : String a s +:+ t = String a (s +:+ t).
Proof. reflexivity. Qed.

Lemma append_nil_r (s : string) : s +:+ "" = s.
Proof. induction s as [|a s IH]; [done|]. by rewrite append_cons, IH. Qed.

Lemma append_assoc (s t u : string) : (s +:+ t) +:+ u = s +:+ t +:+ u.
Proof. induction s as [|a s IH]; [done|]. by rewrite !append_cons, IH. Qed.

Lemma length_append (s t : string) :
  String.length (s +:+ t) = (String.length s + String.length t)%nat.
Proof. induction s as [|a s IH]; [done|]. rewrite append_cons. simpl. by rewrite IH. Qed.

Lemma join_singleton (sep m : string) : join sep [m] = m.
Proof. done. Qed.

Lemma join_cons_cons (sep m m' : string) (ms : list string) :
  join sep (m :: m' :: ms) = m +:+ sep +:+ join sep (m' :: ms).
Proof. done. Qed.

(** Every line of a joined text occurs in it. *)
Lemma join_occurs (sep : string) (ms : list string) (j : nat) (m : string) :
  ms !! j = Some m → ∃ pre post, join sep ms = pre +:+ m +:+ post.
Proof.
  revert j. induction ms as [|x ms IH]; intros j Hj; [done|].
  destruct j as [|j]; simpl in Hj.
  - simplify_eq. destruct ms as [|y ms].
    + exists "", "". by rewrite join_singleton, append_nil_l, append_nil_r.
    + exists "", (sep +:+ join sep (y :: ms)). by rewrite join_cons_cons.
  - destruct ms as [|y ms]; [done|].
    destruct (IH j Hj) as (pre & post & Hjoin).
    exists (x +:+ sep +:+ pre), post.
    by rewrite join_cons_cons, Hjoin, !append_assoc.
Qed.

(** Of two lines of a joined text the earlier one occurs first, and a
    separator follows it. *)
Lemma join_occurs_lt (sep : string) (ms : list string) (i j : nat) (m m' : string) :
  (i < j)%nat → ms !! i = Some m → ms !! j = Some m' →
  ∃ pre mid post, join sep ms = pre +:+ m +:+ sep +:+ mid +:+ m' +:+ post.
Proof.
  revert i j. induction ms as [|x ms IH]; intros i j Hij Hi Hj; [done|].
  destruct j as [|j]; [lia|]. simpl in Hj.
  destruct ms as [|y ms]; [done|].
  destruct i as [|i]; simpl in Hi.
  - simplify_eq. destruct (join_occurs sep (y :: ms) j m' Hj) as (mid & post & Hjoin).
    exists "", mid, post. by rewrite join_cons_cons, Hjoin.
  - destruct (IH i j ltac:(lia) Hi Hj) as (pre & mid & post & Hjoin).
    exists (x +:+ sep +:+ pre), mid, post.
    by rewrite join_cons_cons, Hjoin, !append_assoc.
Qed.

(** A joined text has the lines and the separators between them, and
    nothing else. *)
Lemma length_join (sep : string) (ms : list string) :
  String.length (join sep ms)
  = (sum_list (String.length <$> ms) + pred (length ms) * String.length sep)%nat.
Proof.
  induction ms as [|x ms IH]; [done|].
  destruct ms as [|y ms].
  - rewrite join_singleton. simpl. lia.
  - rewrite join_cons_cons, !length_append, IH. simpl. lia.
Qed.

(** The text every branch of [nagios_output] reports: the severity name, the
    title, a line break and the joined messages. *)
Lemma rendered_nagios_output (resource : string) (results : Results) :
  ∃ head tail,
    rendered (nagios_output resource results)
    = head +:+ _create_title resource results +:+ linesep
      +:+ join linesep (messages results) +:+ tail
    ∧ head ∈ ["OK:  "; "WARNING: "; "CRITICAL: "; "UNKNOWN: ";
              "UNKNOWN: not valid exit_code " +:+ pretty (exit_code results) +:+ " "]
    ∧ tail ∈ [""; linesep].
Proof.
  unfold nagios_output, nagios_text, print2.
  destruct (nagios_branch (exit_code results)); simpl.
  - exists "OK:  ", linesep. split; [|split; apply list_elem_of_In; simpl; auto].
    by rewrite !append_assoc.
  - exists "WARNING: ", "". split; [|split; apply list_elem_of_In; simpl; auto].
    by rewrite ?append_assoc, append_nil_r.
  - exists "CRITICAL: ", "". split; [|split; apply list_elem_of_In; simpl; auto].
    by rewrite ?append_assoc, append_nil_r.
  - exists "UNKNOWN: ", "". split; [|split; apply list_elem_of_In; simpl; auto].
    by rewrite ?append_assoc, append_nil_r.
  - exists ("UNKNOWN: not valid exit_code " +:+ pretty (exit_code results) +:+ " "), "".
    split; [|split; apply list_elem_of_In; simpl; auto 10].
    by rewrite ?append_assoc, append_nil_r.
Qed.

(** C6: the body of the report lists all the accumulated entries, most
    severe first.  What [nagios_output] reports is the severity name, the
    title, a line break and the body (and the line break of [print] when it
    prints); the body is the messages of the entries, sorted in reverse on
    the (severity, message) pair and joined by line breaks.  The sorted
    entries are a permutation of the accumulated ones, and of two entries
    the one with the higher severity (CRITICAL before WARNING before OK) or,
    at equal severity, with the message that compares higher stands
    earlier: its message occurs in the body, a line break follows it, and
    the message of the other entry comes after that.  The body holds the
    messages and the line breaks between them, and nothing else. *)
Theorem messages_most_severe_first (resource : string) (self : Results) :
  let sorted := sorted_reverse (_messages self) in
  let body := join linesep (snd <$> sorted) in
  (∃ head tail,
     rendered (nagios_output resource self)
     = head +:+ _create_title resource self +:+ linesep +:+ body +:+ tail
     ∧ head ∈ ["OK:  "; "WARNING: "; "CRITICAL: "; "UNKNOWN: ";
               "UNKNOWN: not valid exit_code " +:+ pretty (exit_code self) +:+ " "]
     ∧ tail ∈ [""; linesep])
  ∧ sorted ≡ₚ _messages self
  ∧ (∀ (i j : nat) (a b : Z * string),
       (i < j)%nat → sorted !! i = Some a → sorted !! j = Some b →
       (b.1 < a.1 ∨ (b.1 = a.1 ∧ String.le b.2 a.2))
       ∧ ∃ pre mid post, body = pre +:+ a.2 +:+ linesep +:+ mid +:+ b.2 +:+ post)
  ∧ (∀ (i : nat) (a : Z * string),
       sorted !! i = Some a → ∃ pre post, body = pre +:+ a.2 +:+ post)
  ∧ String.length body
    = (sum_list ((λ e : Z * string, String.length e.2) <$> _messages self)
       + pred (length (_messages self)) * String.length linesep)%nat.
Proof.
  intros sorted body. split_and!.
  - apply rendered_nagios_output.
  - apply sorted_reverse_Permutation.
  - intros i j a b Hij Ha Hb. split.
    + exact (StronglySorted_lookup_lt (flip entry_le) sorted i j a b
               (sorted_reverse_descending _) Hij Ha Hb).
    + apply (join_occurs_lt linesep (snd <$> sorted) i j); [done|..].
      * by rewrite list_lookup_fmap, Ha.
      * by rewrite list_lookup_fmap, Hb.
  - intros i a Ha. apply (join_occurs linesep (snd <$> sorted) i).
    by rewrite list_lookup_fmap, Ha.
  - subst body. rewrite length_join, length_fmap, <-list_fmap_compose.
    assert (Hperm : sorted ≡ₚ _messages self) by apply sorted_reverse_Permutation.
    rewrite (Permutation_length Hperm). f_equal.
    assert (Hsum : ∀ l k : list nat, l ≡ₚ k → sum_list l = sum_list k).
    { induction 1; simpl; lia. }
    apply Hsum. by apply fmap_Permutation.
Qed.

Lemma messages_most_severe_first_witness :
  rendered (nagios_output "server" (add_results Results_init calls_mixed))
  = "CRITICAL: servers 1/3 are DOWN, 1/3 in UNKNOWN, 1/3 passed" +:+ linesep
    +:+ "server 'b' is in DOWN status" +:+ linesep
    +:+ "server 'c' is in ERROR status" +:+ linesep
    +:+ "server 'a' is in ACTIVE status"
  ∧ (1 < 2 ∨ (1 = 2 ∧ String.le "server 'c' is in ERROR status"
                               "server 'b' is in DOWN status"))
  ∧ ∃ pre mid post,
      join linesep
        (snd <$> sorted_reverse (_messages (add_results Results_init calls_mixed)))
      = pre +:+ "server 'b' is in DOWN status" +:+ linesep +:+ mid
        +:+ "server 'c' is in ERROR status" +:+ post.
Proof.
  split; [vm_compute; reflexivity|].
  exact (proj1 (proj2 (proj2
           (messages_most_severe_first "server" (add_results Results_init calls_mixed))))
           0%nat 1%nat (2, "server 'b' is in DOWN status")
           (1, "server 'c' is in ERROR status")
           ltac:(lia) ltac:(vm_compute; reflexivity) ltac:(vm_compute; reflexivity)).
Defined.

(** ** The selector *)

Lemma filter_step_explicit (ids skip : gset string) (select : option (gmap string string))
    (resource : Resource) :
  filter_step ids skip false select resource
  = if decide (resource_id resource ∈ ids) then Some resource else None.
Proof.
  unfold filter_step. simpl.
  destruct (decide (resource_id resource ∈ ids)) as [Hin|Hin].
  - by rewrite bool_decide_eq_false_2 by (by intros ?).
  - by rewrite bool_decide_eq_true_2.
Qed.

Lemma filter_step_all (ids skip : gset string) (select : option (gmap string string))
    (resource : Resource) :
  filter_step ids skip true select resource
  = if decide (resource_id resource ∉ skip) then Some resource else None.
Proof.
  unfold filter_step. simpl.
  destruct (decide (resource_id resource ∉ skip)) as [Hin|Hin].
  - rewrite bool_decide_eq_false_2 by done.
    by destruct (select_loop resource (map_to_list (default ∅ select))).
  - rewrite bool_decide_eq_true_2; [done|]. by apply dec_stable.
Qed.

Lemma omap_filter_decide {A} (P : A → Prop) `{∀ x, Decision (P x)} (l : list A) :
  omap (λ x, if decide (P x) then Some x else None) l = filter P l.
Proof.
  induction l as [|x l IH]; [done|]. rewrite filter_cons. csimpl.
  destruct (decide (P x)); csimpl; by rewrite IH.
Qed.

(** With explicit identifiers the selector keeps the resources whose
    identifier was requested. *)
Lemma _resource_filter_explicit (resources : list Resource) (ids : gset string)
    (skip : option (gset string)) (select : option (gmap string string)) :
  _resource_filter resources ids skip false select
  = filter (λ r, resource_id r ∈ ids) resources.
Proof.
  unfold _resource_filter. rewrite <-omap_filter_decide.
  apply list_omap_ext, Forall2_same_length_lookup_2; [done|].
  intros i x y Hx Hy. simplify_eq. apply filter_step_explicit.
Qed.

(** With [check_all] the selector keeps the resources whose identifier is
    not skipped, whatever [select] holds. *)
Lemma _resource_filter_all (resources : list Resource) (ids : gset string)
    (skip : option (gset string)) (select : option (gmap string string)) :
  _resource_filter resources ids skip true select
  = filter (λ r, resource_id r ∉ default ∅ skip) resources.
Proof.
  unfold _resource_filter. rewrite <-omap_filter_decide.
  apply list_omap_ext, Forall2_same_length_lookup_2; [done|].
  intros i x y Hx Hy. simplify_eq. apply filter_step_all.
Qed.

(** C1: with [check_all] and a [select] pair that the resource does not
    match, [_resource_filter] still yields the resource: the port below has
    [subnet] "net-b", the selection asks for "net-a", and the port is kept. *)
Theorem select_mismatch_is_yielded :
  getattr port_on_other_subnet "subnet" PyNone ≠ PyStr "net-a"
  ∧ _resource_filter [port_on_other_subnet] ∅ None true (Some {["subnet" := "net-a"]})
    = [port_on_other_subnet].
Proof. split; [by vm_compute | by rewrite _resource_filter_all]. Qed.

(** C10: without [check_all] the result of [_resource_filter] does not
    depend on [skip] and [select]: two calls that differ in them alone yield
    the same resources. *)
Theorem explicit_filter_ignores_skip_and_select (resources : list Resource)
    (ids : gset string) (skip1 skip2 : option (gset string))
    (select1 select2 : option (gmap string string)) :
  _resource_filter resources ids skip1 false select1
  = _resource_filter resources ids skip2 false select2.
Proof. by rewrite !_resource_filter_explicit. Qed.

(** ** Message texts *)

Lemma list_ascii_of_string_app (s t : string) :
  String.list_ascii_of_string (s +:+ t)
  = String.list_ascii_of_string s ++ String.list_ascii_of_string t.
Proof. induction s as [|a s IH]; [done|]. simpl. by rewrite <-IH. Qed.

Lemma list_ascii_of_string_inj (s t : string) :
  String.list_ascii_of_string s = String.list_ascii_of_string t → s = t.
Proof.
  intros Heq. rewrite <-(String.string_of_list_ascii_of_string s),
    <-(String.string_of_list_ascii_of_string t). by rewrite Heq.
Qed.

Lemma string_app_inv_tail (s1 s2 t : string) : s1 +:+ t = s2 +:+ t → s1 = s2.
Proof.
  intros Heq. apply list_ascii_of_string_inj.
  apply (f_equal String.list_ascii_of_string) in Heq.
  rewrite !list_ascii_of_string_app in Heq. by apply app_inv_tail in Heq.
Qed.

(** The last character of a text that ends in a given nonempty text. *)
Lemma last_string_app (s t : string) (c : Ascii.ascii) :
  last (String.list_ascii_of_string t) = Some c →
  last (String.list_ascii_of_string (s +:+ t)) = Some c.
Proof. intros Ht. rewrite list_ascii_of_string_app, last_app. by rewrite Ht. Qed.

Global Instance not_found_message_inj (type_ : string) :
  Inj (=) (=) (not_found_message type_).
Proof.
  intros i j Heq. unfold not_found_message in Heq.
  apply (inj (String.app type_)), (inj (String.app " '")) in Heq.
  by apply string_app_inv_tail in Heq.
Qed.

Lemma status_message_not_not_found (type_ i j : string) (status : pyval) :
  status_message type_ i status ≠ not_found_message type_ j.
Proof.
  intros Heq. apply (f_equal (λ s, last (String.list_ascii_of_string s))) in Heq.
  unfold status_message, not_found_message in Heq.
  rewrite (last_string_app _ _ "s"%char) in Heq
    by (do 4 apply last_string_app; done).
  rewrite (last_string_app _ _ "d"%char) in Heq
    by (do 2 apply last_string_app; done).
  done.
Qed.

Lemma exists_message_not_not_found (type_ i j : string) :
  exists_message type_ i ≠ not_found_message type_ j.
Proof.
  intros Heq. apply (f_equal (λ s, last (String.list_ascii_of_string s))) in Heq.
  unfold exists_message, not_found_message in Heq.
  rewrite (last_string_app _ _ "s"%char) in Heq
    by (do 2 apply last_string_app; done).
  rewrite (last_string_app _ _ "d"%char) in Heq
    by (do 2 apply last_string_app; done).
  done.
Qed.

(** ** Counting occurrences *)

Lemma occurrences_app {A} `{EqDecision A} (x : A) (l k : list A) :
  occurrences x (l ++ k) = (occurrences x l + occurrences x k)%nat.
Proof. unfold occurrences. by rewrite filter_app, length_app. Qed.

Lemma occurrences_not_elem_of {A} `{EqDecision A} (x : A) (l : list A) :
  x ∉ l → occurrences x l = 0%nat.
Proof.
  unfold occurrences. induction l as [|y l IH]; intros Hin; [done|].
  apply not_elem_of_cons in Hin as [Hne Hin].
  rewrite filter_cons_False by done. by apply IH.
Qed.

Lemma occurrences_NoDup {A} `{EqDecision A} (x : A) (l : list A) :
  NoDup l → x ∈ l → occurrences x l = 1%nat.
Proof.
  unfold occurrences. induction 1 as [|y l Hy Hl IH]; intros Hin; [by inv Hin|].
  destruct (decide (y = x)) as [->|Hne].
  - rewrite filter_cons_True by done. simpl. f_equal.
    by apply (occurrences_not_elem_of x l).
  - rewrite filter_cons_False by done. apply IH.
    apply elem_of_cons in Hin as [?|?]; [congruence | done].
Qed.

Lemma occurrences_fmap_inj {A B} `{EqDecision A, EqDecision B} (f : A → B)
    `{!Inj (=) (=) f} (x : A) (l : list A) :
  occurrences (f x) (f <$> l) = occurrences x l.
Proof.
  unfold occurrences. induction l as [|y l IH]; [done|].
  rewrite fmap_cons, !filter_cons.
  destruct (decide (y = x)) as [->|Hne].
  - rewrite decide_True by done. simpl. by rewrite IH.
  - rewrite decide_False by (by intros ?%(inj f)). done.
Qed.

(** ** The calls of [check] *)

Lemma add_results_app (self : Results) (calls1 calls2 : list call) :
  add_results self (calls1 ++ calls2) = add_results (add_results self calls1) calls2.
Proof. apply foldl_app. Qed.

Lemma check_resource_call (resource_type : string) (results : Results)
    (resource : Resource) :
  check_resource resource_type results resource
  = add_results results [resource_call resource_type resource].
Proof. unfold check_resource, resource_call. by case_bool_decide. Qed.

Lemma foldl_check_resource (resource_type : string) (results : Results)
    (l : list Resource) :
  foldl (check_resource resource_type) results l
  = add_results results (resource_call resource_type <$> l).
Proof.
  revert results. induction l as [|r l IH]; intros results; [done|].
  simpl. by rewrite IH, check_resource_call.
Qed.

Lemma foldl_check_id (resource_type : string) (checked_ids : list string)
    (results : Results) (l : list string) :
  foldl (check_id resource_type checked_ids) results l
  = add_results results (id_call resource_type <$> filter (λ i, i ∉ checked_ids) l).
Proof.
  revert results. induction l as [|i l IH]; intros results; [done|].
  simpl. rewrite IH, filter_cons. unfold check_id.
  destruct (decide (i ∉ checked_ids)) as [Hi|Hi].
  - by rewrite bool_decide_eq_true_2.
  - by rewrite bool_decide_eq_false_2.
Qed.

(** [check_results] is the [Results] object after the calls of [check]. *)
Lemma check_results_calls (resource_type : string) (resources : list Resource)
    (ids : gset string) (skip : option (gset string))
    (select : option (gmap string string)) (check_all : bool) :
  check_results resource_type resources ids skip select check_all
  = add_results Results_init
      (check_calls resource_type resources ids skip select check_all).
Proof.
  unfold check_results, check_calls.
  by rewrite add_results_app, foldl_check_id, foldl_check_resource.
Qed.

Lemma add_results_bucket (self : Results) (calls : list call) (b : bucket) :
  bucket_ids (add_results self calls) b
  = bucket_ids self b ++ (call_id <$> filter (λ c, call_bucket c = b) calls).
Proof.
  revert self. induction calls as [|c calls IH]; intros self.
  - simpl. by rewrite app_nil_r.
  - rewrite add_results_cons, IH, add_result_bucket, filter_cons.
    fold (call_bucket c).
    destruct (decide (b = call_bucket c)) as [->|Hne].
    + rewrite decide_True by done. by rewrite fmap_cons, <-app_assoc.
    + by rewrite decide_False by done.
Qed.

Lemma call_bucket_id_call (resource_type id_ : string) :
  call_bucket (id_call resource_type id_) = BNotFound.
Proof. done. Qed.

Lemma entry_of_id_call (resource_type id_ : string) :
  entry_of_call (id_call resource_type id_)
  = (NAGIOS_STATUS_CRITICAL, not_found_message resource_type id_).
Proof. done. Qed.

Lemma call_id_resource_call (resource_type : string) (resource : Resource) :
  call_id (resource_call resource_type resource) = resource_id resource.
Proof. unfold resource_call. by case_bool_decide. Qed.

Lemma call_type_resource_call (resource_type : string) (resource : Resource) :
  call_type (resource_call resource_type resource) = resource_type.
Proof. unfold resource_call. by case_bool_decide. Qed.

Lemma call_exists_resource_call (resource_type : string) (resource : Resource) :
  call_exists (resource_call resource_type resource) = true.
Proof. unfold resource_call. by case_bool_decide. Qed.

(** A call for a resource that exists never reports it as not found. *)
Lemma classify_exists (type_ id_ : string) (status : pyval) :
  (classify type_ id_ status true).1.1 ≠ BNotFound
  ∧ ∀ j, (classify type_ id_ status true).2 ≠ not_found_message type_ j.
Proof.
  unfold classify. repeat case_match; simpl; (split; [done|]); intros j;
    auto using status_message_not_not_found, exists_message_not_not_found.
Qed.

Lemma call_bucket_resource_call (resource_type : string) (resource : Resource) :
  call_bucket (resource_call resource_type resource) ≠ BNotFound.
Proof.
  unfold call_bucket. rewrite call_exists_resource_call. apply classify_exists.
Qed.

Lemma entry_of_resource_call (resource_type : string) (resource : Resource)
    (code : Z) (j : string) :
  entry_of_call (resource_call resource_type resource)
  ≠ (code, not_found_message resource_type j).
Proof.
  rewrite entry_of_call_classify, call_exists_resource_call, call_type_resource_call.
  intros [= _ Hmsg]. by eapply classify_exists.
Qed.

(** A CRITICAL entry makes the exit code CRITICAL. *)
Lemma critical_entry_exit_code (calls : list call) (m : string) :
  (NAGIOS_STATUS_CRITICAL, m) ∈ entry_of_call <$> calls →
  exit_code (add_results Results_init calls) = NAGIOS_STATUS_CRITICAL.
Proof.
  intros Hm. pose proof (add_results_exit_code_range calls) as Hrange.
  apply list_elem_of_In in Hrange. simpl in Hrange.
  apply max_severity_upper in Hm. simpl in Hm.
  rewrite add_results_exit_code in *. unfold max_severity in Hm. simpl in *.
  unfold NAGIOS_STATUS_CRITICAL, NAGIOS_STATUS_OK in *. lia.
Qed.

Lemma filter_not_found_resource_calls (resource_type : string) (l : list Resource) :
  filter (λ c, call_bucket c = BNotFound) (resource_call resource_type <$> l) = [].
Proof.
  induction l as [|r l IH]; [done|].
  rewrite fmap_cons, filter_cons_False; [done|]. apply call_bucket_resource_call.
Qed.

Lemma filter_bucket_id_calls (resource_type : string) (l : list string) (b : bucket) :
  filter (λ c, call_bucket c = b) (id_call resource_type <$> l)
  = if decide (b = BNotFound) then id_call resource_type <$> l else [].
Proof.
  induction l as [|i l IH]; [by case_decide|].
  rewrite fmap_cons, filter_cons, IH, call_bucket_id_call.
  destruct (decide (b = BNotFound)) as [->|Hne].
  - by rewrite decide_True by done.
  - by rewrite decide_False by done.
Qed.

Lemma call_id_id_calls (resource_type : string) (l : list string) :
  call_id <$> (id_call resource_type <$> l) = l.
Proof. induction l as [|i l IH]; [done|]. rewrite !fmap_cons, IH. done. Qed.

(** The identifiers not found are the requested ones that were not checked. *)
Lemma check_results_not_found (resource_type : string) (resources : list Resource)
    (ids : gset string) (skip : option (gset string))
    (select : option (gmap string string)) (check_all : bool) :
  not_found (check_results resource_type resources ids skip select check_all)
  = filter (λ i, i ∉ resource_id <$> _resource_filter resources ids skip check_all select)
      (elements ids).
Proof.
  rewrite check_results_calls.
  change (not_found ?r) with (bucket_ids r BNotFound).
  rewrite add_results_bucket. unfold check_calls. simpl.
  rewrite filter_app, filter_not_found_resource_calls, filter_bucket_id_calls.
  rewrite decide_True by done. simpl. apply call_id_id_calls.
Qed.

(** The other buckets hold identifiers of filtered resources only. *)
Lemma check_results_bucket (resource_type : string) (resources : list Resource)
    (ids : gset string) (skip : option (gset string))
    (select : option (gmap string string)) (check_all : bool) (b : bucket) (x : string) :
  b ≠ BNotFound →
  x ∈ bucket_ids (check_results resource_type resources ids skip select check_all) b →
  x ∈ resource_id <$> _resource_filter resources ids skip check_all select.
Proof.
  intros Hb. rewrite check_results_calls, add_results_bucket. unfold check_calls.
  rewrite filter_app, filter_bucket_id_calls, decide_False by done.
  rewrite app_nil_r.
  assert (Hnil : bucket_ids Results_init b = []) by by destruct b.
  rewrite Hnil, app_nil_l.
  intros (c & -> & Hc)%list_elem_of_fmap.
  apply list_elem_of_filter in Hc as [_ (r & -> & Hr)%list_elem_of_fmap].
  rewrite call_id_resource_call. by apply list_elem_of_fmap_2.
Qed.

Lemma check_results_messages (resource_type : string) (resources : list Resource)
    (ids : gset string) (skip : option (gset string))
    (select : option (gmap string string)) (check_all : bool) :
  _messages (check_results resource_type resources ids skip select check_all)
  = entry_of_call <$> check_calls resource_type resources ids skip select check_all.
Proof. by rewrite check_results_calls, add_results_messages. Qed.

Lemma entry_of_id_calls (resource_type : string) (l : list string) :
  entry_of_call <$> (id_call resource_type <$> l)
  = (λ i, (NAGIOS_STATUS_CRITICAL, not_found_message resource_type i)) <$> l.
Proof. induction l as [|i l IH]; [done|]. by rewrite !fmap_cons, IH. Qed.

Global Instance not_found_entry_inj (resource_type : string) :
  Inj (=) (=) (λ i, (NAGIOS_STATUS_CRITICAL, not_found_message resource_type i)).
Proof. intros i j [= Heq]. by apply (inj (not_found_message resource_type)). Qed.

(** C4: with explicit identifiers, a requested identifier that is not among
    the filtered resources gets exactly one entry, a CRITICAL one that says
    it was not found, and the aggregate is CRITICAL.  When "a" and "b" are
    requested and the cloud has the server "a" alone, ACTIVE, there is an OK
    entry for "a", a CRITICAL not-found entry for "b", the aggregate is
    CRITICAL and the exit code is 2. *)
Theorem unmatched_ids_are_not_found :
  (∀ (resource_type : string) (resources : list Resource) (ids : gset string)
     (skip : option (gset string)) (select : option (gmap string string))
     (id_ : string),
     id_ ∈ ids →
     id_ ∉ resource_id <$> _resource_filter resources ids skip false select →
     let r := check_results resource_type resources ids skip select false in
     occurrences id_ (not_found r) = 1%nat
     ∧ occurrences (NAGIOS_STATUS_CRITICAL, not_found_message resource_type id_)
         (_messages r) = 1%nat
     ∧ (id_ ∉ ok r ++ warning r ++ critical r)
     ∧ exit_code r = NAGIOS_STATUS_CRITICAL)
  ∧ (let cloud := cloud_of_servers [mk_resource "a" [("status", PyStr "ACTIVE")]] in
     let r := check_results "server" (compute_servers cloud) {["a"; "b"]} None None false in
     _messages r = [(NAGIOS_STATUS_OK, "server 'a' is in ACTIVE status");
                    (NAGIOS_STATUS_CRITICAL, "server 'b' was not found")]
     ∧ ok r = ["a"] ∧ warning r = [] ∧ critical r = [] ∧ not_found r = ["b"]
     ∧ exit_code r = NAGIOS_STATUS_CRITICAL
     ∧ try_check (check cloud "server" {["a"; "b"]} None None false) = 2).
Proof.
  split; [|by vm_compute].
  intros resource_type resources ids skip select id_ Hid Hunchecked r.
  set (filtered := _resource_filter resources ids skip false select) in *.
  set (unchecked := filter (λ i, i ∉ resource_id <$> filtered) (elements ids)).
  assert (Hnodup : NoDup unchecked) by apply NoDup_filter, NoDup_elements.
  assert (Hin : id_ ∈ unchecked).
  { apply list_elem_of_filter. split; [done|]. by apply elem_of_elements. }
  assert (Hmsgs : _messages r
    = (entry_of_call <$> (resource_call resource_type <$> filtered))
      ++ ((λ i, (NAGIOS_STATUS_CRITICAL, not_found_message resource_type i))
            <$> unchecked)).
  { subst r. rewrite check_results_messages. unfold check_calls.
    by rewrite fmap_app, entry_of_id_calls. }
  split_and!.
  - subst r. rewrite check_results_not_found. by apply occurrences_NoDup.
  - rewrite Hmsgs, occurrences_app.
    rewrite (occurrences_fmap_inj
               (λ i, (NAGIOS_STATUS_CRITICAL, not_found_message resource_type i))).
    rewrite (occurrences_NoDup id_ unchecked) by done.
    rewrite occurrences_not_elem_of; [done|].
    intros (c & Hc & (res & -> & Hres)%list_elem_of_fmap)%list_elem_of_fmap.
    symmetry in Hc. by apply entry_of_resource_call in Hc.
  - intros Hbuckets. apply Hunchecked.
    rewrite !elem_of_app in Hbuckets.
    destruct Hbuckets as [Hb | [Hb | Hb]].
    + by apply (check_results_bucket resource_type resources ids skip select false BOk).
    + by apply (check_results_bucket resource_type resources ids skip select false BWarning).
    + by apply (check_results_bucket resource_type resources ids skip select false BCritical).
  - subst r. rewrite check_results_calls.
    apply (critical_entry_exit_code _ (not_found_message resource_type id_)).
    unfold check_calls. fold filtered. fold unchecked.
    rewrite fmap_app, entry_of_id_calls. apply elem_of_app. right.
    by apply (list_elem_of_fmap_2
      (λ i, (NAGIOS_STATUS_CRITICAL, not_found_message resource_type i))).
Qed.

Lemma unmatched_ids_are_not_found_witness :
  "b" ∈ ids_a_b
  ∧ ("b" ∉ resource_id <$> _resource_filter servers_a ids_a_b None false None)
  ∧ occurrences "b" (not_found (check_results "server" servers_a ids_a_b None None false))
    = 1%nat
  ∧ occurrences (NAGIOS_STATUS_CRITICAL, not_found_message "server" "b")
      (_messages (check_results "server" servers_a ids_a_b None None false))
    = 1%nat
  ∧ ("b" ∉ ok (check_results "server" servers_a ids_a_b None None false)
           ++ warning (check_results "server" servers_a ids_a_b None None false)
           ++ critical (check_results "server" servers_a ids_a_b None None false))
  ∧ exit_code (check_results "server" servers_a ids_a_b None None false)
    = NAGIOS_STATUS_CRITICAL.
Proof.
  assert (Hid : "b" ∈ ids_a_b).
  { apply (bool_decide_unpack _). vm_compute. exact I. }
  assert (Hunchecked :
    "b" ∉ resource_id <$> _resource_filter servers_a ids_a_b None false None).
  { apply (bool_decide_unpack _). vm_compute. exact I. }
  split; [exact Hid|]. split; [exact Hunchecked|].
  exact (proj1 unmatched_ids_are_not_found "server" servers_a ids_a_b None None "b"
           Hid Hunchecked).
Defined.

(** ** Skipped and requested resources *)

Lemma filter_True {A} (P : A → Prop) `{∀ x, Decision (P x)} (l : list A) :
  (∀ x, x ∈ l → P x) → filter P l = l.
Proof.
  induction l as [|x l IH]; intros HP; [done|].
  rewrite filter_cons_True by (apply HP; by left).
  f_equal. apply IH. intros y Hy. apply HP. by right.
Qed.

(** C7: with explicit identifiers the selector yields exactly the
    enumerated resources whose identifier was requested.  With [check_all] a
    resource whose identifier is skipped is not yielded, and the run has no
    entry for it, whatever its status: the results are those of a run on an
    enumeration without the skipped resources. *)
Theorem filter_selects_ids_and_skips (resource_type : string)
    (resources : list Resource) (ids : gset string) (skip : option (gset string))
    (select : option (gmap string string)) :
  _resource_filter resources ids skip false select
  = filter (λ res, resource_id res ∈ ids) resources
  ∧ (∀ x, x ∈ default ∅ skip →
          x ∉ resource_id <$> _resource_filter resources ids skip true select)
  ∧ (∀ x b, x ∈ default ∅ skip →
            x ∉ bucket_ids (check_results resource_type resources ∅ skip select true) b)
  ∧ check_results resource_type resources ∅ skip select true
    = check_results resource_type
        (filter (λ res, resource_id res ∉ default ∅ skip) resources) ∅ None select true
  ∧ count (check_results resource_type resources ∅ skip select true)
    = length (filter (λ res, resource_id res ∉ default ∅ skip) resources).
Proof.
  assert (Hskipped : ∀ ids' x, x ∈ default ∅ skip →
    x ∉ resource_id <$> _resource_filter resources ids' skip true select).
  { intros ids' x Hx (res & -> & Hres)%list_elem_of_fmap.
    rewrite _resource_filter_all in Hres.
    by apply list_elem_of_filter in Hres as [Hres _]. }
  split_and!.
  - apply _resource_filter_explicit.
  - intros x Hx. by apply Hskipped.
  - intros x b Hx Hb. destruct (decide (b = BNotFound)) as [->|Hne].
    + simpl in Hb. rewrite check_results_not_found, elements_empty in Hb. by inv Hb.
    + by eapply Hskipped, check_results_bucket.
  - unfold check_results. rewrite !_resource_filter_all.
    rewrite (filter_True (λ res, resource_id res ∉ default ∅ None)); [done|].
    intros res _. simpl. set_solver.
  - unfold count. rewrite check_results_messages. unfold check_calls.
    rewrite elements_empty, _resource_filter_all. simpl.
    by rewrite app_nil_r, !length_fmap.
Qed.

Lemma filter_selects_ids_and_skips_witness :
  "x" ∈ default (∅ : gset string) (Some {["x"]})
  ∧ ("x" ∉ resource_id <$> _resource_filter ports_x_y ∅ (Some {["x"]}) true None)
  ∧ ("x" ∉ critical (check_results "port" ports_x_y ∅ (Some {["x"]}) None true)).
Proof.
  assert (Hx : "x" ∈ default (∅ : gset string) (Some {["x"]})).
  { apply (bool_decide_unpack _). vm_compute. exact I. }
  split; [exact Hx|]. split.
  - exact (proj1 (proj2
      (filter_selects_ids_and_skips "port" ports_x_y ∅ (Some {["x"]}) None)) "x" Hx).
  - exact (proj1 (proj2 (proj2
      (filter_selects_ids_and_skips "port" ports_x_y ∅ (Some {["x"]}) None)))
      "x" BCritical Hx).
Defined.

(** ** Existence-only resource types *)

(** For an existence-only type the call for a resource uses its identifier
    alone. *)
Lemma resource_call_existence (resource_type : string) (resource : Resource) :
  resource_type ∈ RESOURCES_BY_EXISTENCE →
  resource_call resource_type resource
  = {| call_type := resource_type; call_id := resource_id resource;
       call_status := PyNone; call_exists := true |}.
Proof.
  intros Hty. unfold resource_call. by rewrite bool_decide_eq_false_2 by (by intros ?).
Qed.

Lemma classify_existence (resource_type id_ : string) :
  resource_type ∈ RESOURCES_BY_EXISTENCE →
  classify resource_type id_ PyNone true
  = (BOk, NAGIOS_STATUS_OK, exists_message resource_type id_).
Proof. intros Hty. unfold classify. simpl. by rewrite bool_decide_eq_true_2. Qed.

Lemma call_bucket_existence (resource_type : string) (resource : Resource) :
  resource_type ∈ RESOURCES_BY_EXISTENCE →
  call_bucket (resource_call resource_type resource) = BOk.
Proof.
  intros Hty. unfold call_bucket.
  rewrite (resource_call_existence resource_type resource Hty). simpl.
  by rewrite (classify_existence resource_type (resource_id resource) Hty).
Qed.

Lemma filter_bucket_existence_calls (resource_type : string) (l : list Resource)
    (b : bucket) :
  resource_type ∈ RESOURCES_BY_EXISTENCE →
  filter (λ c, call_bucket c = b) (resource_call resource_type <$> l)
  = if decide (b = BOk) then resource_call resource_type <$> l else [].
Proof.
  intros Hty. induction l as [|r l IH]; [by case_decide|].
  rewrite fmap_cons, filter_cons, IH, (call_bucket_existence resource_type r Hty).
  destruct (decide (b = BOk)) as [->|Hne].
  - by rewrite decide_True by done.
  - by rewrite decide_False by done.
Qed.

Lemma fmap_filter_ids (ids : gset string) (l : list Resource) :
  resource_id <$> filter (λ res, resource_id res ∈ ids) l
  = filter (λ i, i ∈ ids) (resource_id <$> l).
Proof.
  induction l as [|r l IH]; [done|].
  rewrite fmap_cons, !filter_cons.
  destruct (decide (resource_id r ∈ ids)); by rewrite ?fmap_cons, IH.
Qed.

Lemma resource_calls_existence (resource_type : string) (l : list Resource) :
  resource_type ∈ RESOURCES_BY_EXISTENCE →
  resource_call resource_type <$> l
  = (λ i, {| call_type := resource_type; call_id := i; call_status := PyNone;
             call_exists := true |}) <$> (resource_id <$> l).
Proof.
  intros Hty. rewrite <-list_fmap_compose. apply list_fmap_ext.
  intros i r _. by apply resource_call_existence.
Qed.

(** C8: for an existence-only resource type, a resource that was requested
    by its identifier and that the cloud enumerates gets an OK entry whose
    message says that it exists and names no status; its identifier is in no
    other bucket.  The attributes of the records, [status] included, are not
    consulted: two enumerations with the same identifiers give the same
    results. *)
Theorem existence_only_resource_exists (resource_type : string)
    (resources : list Resource) (ids : gset string) (skip : option (gset string))
    (select : option (gmap string string)) (resource : Resource) :
  resource_type ∈ RESOURCES_BY_EXISTENCE →
  resource ∈ resources →
  resource_id resource ∈ ids →
  (NAGIOS_STATUS_OK, resource_type +:+ " '" +:+ resource_id resource +:+ "' exists")
    ∈ _messages (check_results resource_type resources ids skip select false)
  ∧ resource_id resource ∈ ok (check_results resource_type resources ids skip select false)
  ∧ (resource_id resource
       ∉ warning (check_results resource_type resources ids skip select false)
         ++ critical (check_results resource_type resources ids skip select false)
         ++ not_found (check_results resource_type resources ids skip select false))
  ∧ (∀ resources' : list Resource,
       resource_id <$> resources' = resource_id <$> resources →
       check_results resource_type resources' ids skip select false
       = check_results resource_type resources ids skip select false).
Proof.
  intros Hty Hres Hid.
  set (r := check_results resource_type resources ids skip select false).
  set (filtered := _resource_filter resources ids skip false select).
  assert (Hfiltered : resource ∈ filtered).
  { subst filtered. rewrite _resource_filter_explicit. by apply list_elem_of_filter. }
  assert (Hbucket : ∀ b, bucket_ids r b
    = (if decide (b = BOk) then resource_id <$> filtered else [])
      ++ (if decide (b = BNotFound)
          then filter (λ i, i ∉ resource_id <$> filtered) (elements ids) else [])).
  { intros b. subst r. rewrite check_results_calls, add_results_bucket.
    unfold check_calls. fold filtered.
    rewrite filter_app, filter_bucket_existence_calls, filter_bucket_id_calls by done.
    assert (Hnil : bucket_ids Results_init b = []) by by destruct b.
    rewrite Hnil, app_nil_l, fmap_app. f_equal.
    - case_decide; [|done]. rewrite <-list_fmap_compose. apply list_fmap_ext.
      intros i x _. simpl. apply call_id_resource_call.
    - case_decide; [|done]. apply call_id_id_calls. }
  split_and!.
  - subst r. rewrite check_results_messages. unfold check_calls. fold filtered.
    rewrite fmap_app. apply elem_of_app. left.
    apply list_elem_of_fmap. exists (resource_call resource_type resource).
    split; [|by apply list_elem_of_fmap_2].
    rewrite entry_of_call_classify, resource_call_existence by done. simpl.
    by rewrite classify_existence.
  - change (ok r) with (bucket_ids r BOk). rewrite Hbucket. simpl.
    rewrite app_nil_r. by apply list_elem_of_fmap_2.
  - change (warning r) with (bucket_ids r BWarning).
    change (critical r) with (bucket_ids r BCritical).
    change (not_found r) with (bucket_ids r BNotFound).
    rewrite !Hbucket. simpl.
    intros (Hunchecked & _)%list_elem_of_filter. apply Hunchecked.
    by apply list_elem_of_fmap_2.
  - intros resources' Hids. subst r.
    rewrite !check_results_calls. f_equal. unfold check_calls.
    rewrite !_resource_filter_explicit, !resource_calls_existence by done.
    by rewrite !fmap_filter_ids, Hids.
Qed.

Lemma existence_only_resource_exists_witness :
  "subnet" ∈ RESOURCES_BY_EXISTENCE
  ∧ subnet_with_status ∈ [subnet_with_status]
  ∧ resource_id subnet_with_status ∈ ({["s1"]} : gset string)
  ∧ (NAGIOS_STATUS_OK, "subnet 's1' exists")
      ∈ _messages (check_results "subnet" [subnet_with_status] {["s1"]} None None false).
Proof.
  assert (Hty : "subnet" ∈ RESOURCES_BY_EXISTENCE).
  { apply (bool_decide_unpack _). vm_compute. exact I. }
  assert (Hres : subnet_with_status ∈ [subnet_with_status]) by apply list_elem_of_here.
  assert (Hid : resource_id subnet_with_status ∈ ({["s1"]} : gset string)).
  { apply (bool_decide_unpack _). vm_compute. exact I. }
  split; [exact Hty|]. split; [exact Hres|]. split; [exact Hid|].
  exact (proj1 (existence_only_resource_exists "subnet" [subnet_with_status] {["s1"]}
                  None None subnet_with_status Hty Hres Hid)).
Defined.

(** ** The reporter *)

(** The exit code and the text of each branch of [nagios_output]. *)
Lemma nagios_output_branches (resource : string) (results : Results) :
  try_check (Some (nagios_output resource results))
  = match nagios_branch (exit_code results) with
    | ReportOk => 0
    | ReportWarning => 1
    | ReportCritical => 2
    | ReportUnknown | ReportInvalid => 3
    end
  ∧ rendered (nagios_output resource results)
    = match nagios_branch (exit_code results) with
      | ReportOk => "OK: " +:+ " " +:+ nagios_text resource results +:+ linesep
      | ReportWarning => "WARNING: " +:+ nagios_text resource results
      | ReportCritical => "CRITICAL: " +:+ nagios_text resource results
      | ReportUnknown => "UNKNOWN: " +:+ nagios_text resource results
      | ReportInvalid =>
          "UNKNOWN: not valid exit_code " +:+ pretty (exit_code results) +:+ " "
          +:+ nagios_text resource results
      end.
Proof. unfold nagios_output. by destruct (nagios_branch (exit_code results)). Qed.

(** C5: when every check passed, [nagios_output] prints "OK: ", a second
    space, the title, the body and a newline, and the run exits with 0: the
    text does not start with "OK: <title>". *)
Theorem ok_report_has_two_spaces :
  exit_code results_all_ok = NAGIOS_STATUS_OK
  ∧ _create_title "server" results_all_ok = "servers 1/1 passed"
  ∧ messages results_all_ok = ["server 'a' is in ACTIVE status"]
  ∧ nagios_output "server" results_all_ok
    = Printed ("OK:  servers 1/1 passed" +:+ linesep
               +:+ "server 'a' is in ACTIVE status" +:+ linesep)
  ∧ rendered (nagios_output "server" results_all_ok)
    ≠ "OK: " +:+ _create_title "server" results_all_ok +:+ linesep
      +:+ join linesep (messages results_all_ok)
  ∧ String.prefix ("OK: " +:+ _create_title "server" results_all_ok)
      (rendered (nagios_output "server" results_all_ok)) = false
  ∧ try_check (Some (nagios_output "server" results_all_ok)) = 0.
Proof. split_and!; by vm_compute. Qed.

(** * Further properties *)

(** ** The argument checks *)

Lemma RESOURCES_supported (resource_type : string) :
  is_Some (RESOURCES resource_type)
  ↔ resource_type ∈ ["network"; "floating-ip"; "server"; "port"; "security-group"; "subnet"].
Proof.
  unfold RESOURCES. split.
  - intros Hsome. repeat case_decide; subst;
      try (apply (bool_decide_unpack _); vm_compute; exact I).
    by destruct Hsome.
  - intros Hin. apply list_elem_of_In in Hin. simpl in Hin.
    destruct Hin as [<- | [<- | [<- | [<- | [<- | [<- | []]]]]]]; by eexists.
Qed.

Lemma RESOURCES_BY_EXISTENCE_supported (resource_type : string) :
  resource_type ∈ RESOURCES_BY_EXISTENCE → RESOURCES resource_type ≠ None.
Proof.
  intros Hin. apply list_elem_of_In in Hin. simpl in Hin.
  by destruct Hin as [<- | [<- | [<- | []]]].
Qed.

(** What the tuple [parse_arguments] returns satisfies. *)
Lemma parse_arguments_Parsed (args : Namespace) (resource : string)
    (ids skip : gset string) (select : gmap string string) (check_all : bool) :
  parse_arguments args = Parsed resource ids skip select check_all →
  resource = ns_resource args
  ∧ is_Some (RESOURCES resource)
  ∧ check_all = ns_all args
  ∧ ids = list_to_set (ns_id args)
  ∧ skip = list_to_set (ns_skip_id args)
  ∧ dict_of_items (ns_select args) ∅ = Some select
  ∧ ((check_all = true ∧ (resource ∉ RESOURCES_BY_EXISTENCE) ∧ ids = ∅)
     ∨ (check_all = false ∧ ids ≠ ∅ ∧ skip = ∅ ∧ select = ∅)).
Proof.
  unfold parse_arguments. intros Hparsed.
  destruct (decide (RESOURCES (ns_resource args) = None)) as [|Hsupported]; [done|].
  destruct (ns_all args) eqn:Hall; simpl in Hparsed.
  - case_bool_decide as Hexistence; [done|].
    case_bool_decide as Hid; [done|].
    destruct (dict_of_items (ns_select args) ∅) as [d|] eqn:Hdict; [|done].
    simplify_eq. split_and!; try done.
    + by apply not_eq_None_Some.
    + left. by rewrite Hid.
  - case_bool_decide as Hid; [done|].
    case_bool_decide as Hskip; [done|].
    case_bool_decide as Hselect; [done|].
    rewrite Hselect in Hparsed |- *. simpl in Hparsed. simplify_eq.
    split_and!; try done.
    + by apply not_eq_None_Some.
    + right. split_and!; try done.
      * destruct (ns_id args) as [|i l]; [done|]. set_solver.
      * by rewrite Hskip.
Qed.

(** X1: arguments that [parse_arguments] accepts form a selection policy.
    The resource type is one [RESOURCES] knows, and either [--all] is set,
    the type is not existence-only and no identifier is requested, or
    [--all] is not set, some identifier is requested and neither
    [--skip-id] nor [--select] was given. *)
Theorem parse_arguments_policy (args : Namespace) (resource : string)
    (ids skip : gset string) (select : gmap string string) (check_all : bool) :
  parse_arguments args = Parsed resource ids skip select check_all →
  resource = ns_resource args
  ∧ is_Some (RESOURCES resource)
  ∧ check_all = ns_all args
  ∧ ids = list_to_set (ns_id args)
  ∧ skip = list_to_set (ns_skip_id args)
  ∧ dict_of_items (ns_select args) ∅ = Some select
  ∧ ((check_all = true ∧ (resource ∉ RESOURCES_BY_EXISTENCE) ∧ ids = ∅)
     ∨ (check_all = false ∧ ids ≠ ∅ ∧ skip = ∅ ∧ select = ∅)).
Proof. apply parse_arguments_Parsed. Qed.

Lemma parse_arguments_policy_witness :
  parse_arguments ns_all_servers
  = Parsed "server" ∅ {["x"]} {["subnet" := "net-a"]} true
  ∧ is_Some (RESOURCES "server").
Proof.
  assert (Hparsed : parse_arguments ns_all_servers
                    = Parsed "server" ∅ {["x"]} {["subnet" := "net-a"]} true).
  { vm_compute. reflexivity. }
  split; [exact Hparsed|].
  exact (proj1 (proj2 (parse_arguments_policy ns_all_servers "server" ∅ {["x"]}
                         {["subnet" := "net-a"]} true Hparsed))).
Defined.

(** X2: [--all] on an existence-only resource type is a usage error,
    whatever the other options are. *)
Theorem parse_arguments_all_by_existence (args : Namespace) :
  ns_all args = true →
  ns_resource args ∈ RESOURCES_BY_EXISTENCE →
  parse_arguments args
  = ParserError ("flag '--all' is not supported with resource " +:+ ns_resource args).
Proof.
  intros Hall Hexistence. unfold parse_arguments.
  rewrite decide_False by by apply RESOURCES_BY_EXISTENCE_supported.
  by rewrite Hall, bool_decide_eq_true_2.
Qed.

Lemma parse_arguments_all_by_existence_witness :
  parse_arguments ns_all_subnets
  = ParserError "flag '--all' is not supported with resource subnet".
Proof.
  apply (parse_arguments_all_by_existence ns_all_subnets).
  - reflexivity.
  - apply (bool_decide_unpack _). vm_compute. exact I.
Defined.

(** X3: a resource type that is not in [RESOURCES] is a usage error that
    names it, and so is giving both [--all] and [--id], or neither. *)
Theorem parse_arguments_usage_errors (args : Namespace) :
  (RESOURCES (ns_resource args) = None →
   parse_arguments args
   = ParserError ("'" +:+ ns_resource args +:+ "' resource is not supported"))
  ∧ (ns_all args = bool_decide (ns_id args ≠ []) →
     ∃ message, parse_arguments args = ParserError message).
Proof.
  unfold parse_arguments. split.
  - intros Hnone. by rewrite decide_True.
  - intros Hmode.
    destruct (decide (RESOURCES (ns_resource args) = None)); [eexists; reflexivity|].
    destruct (ns_all args); simpl.
    + destruct (bool_decide (ns_resource args ∈ RESOURCES_BY_EXISTENCE));
        [eexists; reflexivity|].
      rewrite <-Hmode. eexists; reflexivity.
    + symmetry in Hmode. apply bool_decide_eq_false_1 in Hmode.
      rewrite bool_decide_eq_true_2 by by apply dec_stable. eexists; reflexivity.
Qed.

Lemma parse_arguments_usage_errors_witness :
  ∃ message,
    parse_arguments {| ns_resource := "server"; ns_all := true; ns_id := ["a"];
                       ns_skip_id := []; ns_select := [] |}
    = ParserError message.
Proof.
  exact (proj2 (parse_arguments_usage_errors
                  {| ns_resource := "server"; ns_all := true; ns_id := ["a"];
                     ns_skip_id := []; ns_select := [] |}) eq_refl).
Defined.

(** ** The [--select] values *)

Lemma split_once_Some (arg key value : string) :
  split_once arg = Some (key, value)
  ↔ arg = key +:+ "=" +:+ value ∧ "="%char ∉ String.list_ascii_of_string key.
Proof.
  revert key. induction arg as [|c rest IH]; intros key; simpl.
  - split; [done|]. intros [Heq _]. by destruct key.
  - destruct (decide (c = "="%char)) as [->|Hc].
    + split.
      * intros [= <- <-]. split; [done | apply not_elem_of_nil].
      * intros [Heq Hkey]. destruct key as [|k key].
        -- rewrite append_nil_l, append_cons, append_nil_l in Heq. by simplify_eq.
        -- rewrite append_cons in Heq. simplify_eq. exfalso. apply Hkey. simpl. by left.
    + split.
      * remember (split_once rest) as o eqn:Hrest in |- *. symmetry in Hrest.
        destruct o as [[k v]|]; [|done].
        intros [= <- <-]. apply IH in Hrest as [-> Hk].
        split; [done|]. simpl. by apply not_elem_of_cons.
      * intros [Heq Hkey]. destruct key as [|k key].
        -- rewrite append_nil_l, append_cons in Heq. by simplify_eq.
        -- rewrite append_cons in Heq. simplify_eq.
           simpl in Hkey. apply not_elem_of_cons in Hkey as [_ Hkey].
           assert (Hrest : split_once (key +:+ "=" +:+ value) = Some (key, value))
             by by apply IH.
           by rewrite Hrest.
Qed.

(** X4: [split_once] cuts at the first "=": it returns a key and a value
    exactly when the argument is the key, "=" and the value, and the key has
    no "=". *)
Theorem split_once_spec (arg key value : string) :
  split_once arg = Some (key, value)
  ↔ arg = key +:+ "=" +:+ value ∧ "="%char ∉ String.list_ascii_of_string key.
Proof. apply split_once_Some. Qed.

Lemma split_once_spec_witness :
  split_once "subnet=a=b" = Some ("subnet", "a=b").
Proof.
  apply (split_once_spec "subnet=a=b" "subnet" "a=b"). split.
  - reflexivity.
  - apply (bool_decide_unpack _). vm_compute. exact I.
Defined.

Lemma split_once_None (arg : string) :
  split_once arg = None ↔ "="%char ∉ String.list_ascii_of_string arg.
Proof.
  induction arg as [|c rest IH]; simpl.
  - split; [intros _; apply not_elem_of_nil | done].
  - destruct (decide (c = "="%char)) as [->|Hc].
    + split; [done|]. intros Hnot. exfalso. apply Hnot. by left.
    + rewrite not_elem_of_cons, <-IH.
      destruct (split_once rest) as [[k v]|]; split; try done. by intros [_ ?].
Qed.

Lemma dict_of_items_app (items1 items2 : list string) (d : gmap string string) :
  dict_of_items (items1 ++ items2) d
  = dict_of_items items1 d ≫= dict_of_items items2.
Proof.
  revert d. induction items1 as [|arg items1 IH]; intros d; [done|].
  simpl. destruct (split_once arg) as [[key value]|]; [apply IH | done].
Qed.

Lemma dict_of_items_lookup_other (items : list string) (d d' : gmap string string)
    (key : string) :
  dict_of_items items d = Some d' →
  (∀ arg value, arg ∈ items → split_once arg ≠ Some (key, value)) →
  d' !! key = d !! key.
Proof.
  revert d. induction items as [|arg items IH]; intros d Hdict Hother; simpl in Hdict.
  - by simplify_eq.
  - destruct (split_once arg) as [[k v]|] eqn:Harg; [|done].
    rewrite (IH _ Hdict).
    + apply lookup_insert_ne. intros ->. by apply (Hother arg v); [left|].
    + intros a w Ha. apply Hother. by right.
Qed.

Lemma dict_of_items_None (items : list string) (d : gmap string string) :
  dict_of_items items d = None
  ↔ ∃ arg, arg ∈ items ∧ "="%char ∉ String.list_ascii_of_string arg.
Proof.
  revert d. induction items as [|arg items IH]; intros d; simpl.
  - split; [done|]. intros (arg & Harg & _). by inv Harg.
  - destruct (split_once arg) as [[k v]|] eqn:Harg.
    + rewrite IH. split.
      * intros (a & Ha & Hnot). exists a. split; [by right | done].
      * intros (a & Ha & Hnot). exists a. split; [|done].
        apply elem_of_cons in Ha as [->|Ha]; [|done].
        apply split_once_None in Hnot. congruence.
    + split; [|done]. intros _. exists arg. split; [by left|].
      by apply split_once_None.
Qed.

(** X5: the dictionary of the [--select] values fails exactly when one of
    them has no "=" (the [ValueError] of [dict]); otherwise the last value
    given for a key is the one the dictionary holds. *)
Theorem dict_of_items_spec (items : list string) (d : gmap string string) :
  (dict_of_items items d = None
   ↔ ∃ arg, arg ∈ items ∧ "="%char ∉ String.list_ascii_of_string arg)
  ∧ (∀ items1 items2 key value d',
       items = items1 ++ (key +:+ "=" +:+ value) :: items2 →
       "="%char ∉ String.list_ascii_of_string key →
       (∀ arg w, arg ∈ items2 → split_once arg ≠ Some (key, w)) →
       dict_of_items items d = Some d' →
       d' !! key = Some value).
Proof.
  split; [apply dict_of_items_None|].
  intros items1 items2 key value d' -> Hkey Hlast Hdict.
  rewrite dict_of_items_app in Hdict.
  destruct (dict_of_items items1 d) as [d1|]; [|done]. simpl in Hdict.
  assert (Hsplit : split_once (key +:+ "=" +:+ value) = Some (key, value)).
  { apply split_once_Some. by split. }
  rewrite Hsplit in Hdict.
  rewrite (dict_of_items_lookup_other _ _ _ key Hdict Hlast).
  apply lookup_insert_eq.
Qed.

Lemma dict_of_items_spec_witness :
  dict_of_items ["a=1"; "b=2"; "a=3"] ∅ = Some {["a" := "3"; "b" := "2"]}
  ∧ ({["a" := "3"; "b" := "2"]} : gmap string string) !! "a" = Some "3".
Proof.
  assert (Hdict : dict_of_items ["a=1"; "b=2"; "a=3"] ∅
                  = Some {["a" := "3"; "b" := "2"]}).
  { vm_compute. reflexivity. }
  split; [exact Hdict|].
  apply (proj2 (dict_of_items_spec ["a=1"; "b=2"; "a=3"] ∅)
           ["a=1"; "b=2"] [] "a" "3" {["a" := "3"; "b" := "2"]}).
  - reflexivity.
  - apply (bool_decide_unpack _). vm_compute. exact I.
  - intros arg w Harg. inversion Harg.
  - exact Hdict.
Defined.

(** ** The buckets and the aggregate *)

(** The exit code of an entry is fixed by the bucket of its identifier. *)
Lemma classify_bucket_code (type_ id_ : string) (status : pyval) (exists_ : bool) :
  (classify type_ id_ status exists_).1.2
  = match (classify type_ id_ status exists_).1.1 with
    | BOk => NAGIOS_STATUS_OK
    | BWarning => NAGIOS_STATUS_WARNING
    | BCritical | BNotFound => NAGIOS_STATUS_CRITICAL
    end.
Proof. unfold classify. by repeat case_match. Qed.

Lemma add_results_count (self : Results) (calls : list call) :
  count (add_results self calls) = (count self + length calls)%nat.
Proof. unfold count. by rewrite add_results_messages, length_app, length_fmap. Qed.

Lemma add_result_bucket_lengths (self : Results) (type_ id_ : string) (status : pyval)
    (exists_ : bool) :
  (length (ok (add_result self type_ id_ status exists_))
   + length (warning (add_result self type_ id_ status exists_))
   + length (critical (add_result self type_ id_ status exists_))
   + length (not_found (add_result self type_ id_ status exists_)))%nat
  = S (length (ok self) + length (warning self) + length (critical self)
       + length (not_found self)).
Proof.
  pose proof (add_result_bucket self type_ id_ status exists_) as Hb.
  pose proof (Hb BOk) as Hok. pose proof (Hb BWarning) as Hwarning.
  pose proof (Hb BCritical) as Hcritical. pose proof (Hb BNotFound) as Hnot_found.
  simpl in Hok, Hwarning, Hcritical, Hnot_found.
  rewrite Hok, Hwarning, Hcritical, Hnot_found.
  destruct ((classify type_ id_ status exists_).1.1); simpl;
    rewrite ?length_app; simpl; lia.
Qed.

Lemma add_results_bucket_lengths (self : Results) (calls : list call) :
  (length (ok (add_results self calls)) + length (warning (add_results self calls))
   + length (critical (add_results self calls))
   + length (not_found (add_results self calls)))%nat
  = (length (ok self) + length (warning self) + length (critical self)
     + length (not_found self) + length calls)%nat.
Proof.
  revert self. induction calls as [|c calls IH]; intros self; [simpl; lia|].
  rewrite add_results_cons, IH, add_result_bucket_lengths. simpl. lia.
Qed.

(** X6: after any sequence of [add_result] calls on a fresh [Results]
    object, each call has left one entry and one identifier in one bucket:
    [count] is the number of calls, the sizes of the four buckets add up to
    it, and [messages] has one line for each entry. *)
Theorem results_count_invariant (calls : list call) :
  count (add_results Results_init calls) = length calls
  ∧ (length (ok (add_results Results_init calls))
     + length (warning (add_results Results_init calls))
     + length (critical (add_results Results_init calls))
     + length (not_found (add_results Results_init calls)))%nat
    = count (add_results Results_init calls)
  ∧ length (messages (add_results Results_init calls))
    = count (add_results Results_init calls).
Proof.
  split_and!.
  - by rewrite add_results_count.
  - by rewrite add_results_count, add_results_bucket_lengths.
  - unfold messages, count.
    by rewrite length_fmap, (Permutation_length (sorted_reverse_Permutation _)).
Qed.

(** The severity an exit code stands for, read off the buckets. *)
Lemma add_result_severity_buckets (self : Results) (type_ id_ : string)
    (status : pyval) (exists_ : bool) :
  (exit_code self = NAGIOS_STATUS_OK
   ∧ warning self = [] ∧ critical self = [] ∧ not_found self = []
   ∨ exit_code self = NAGIOS_STATUS_WARNING
     ∧ warning self ≠ [] ∧ critical self = [] ∧ not_found self = []
   ∨ exit_code self = NAGIOS_STATUS_CRITICAL
     ∧ (critical self ≠ [] ∨ not_found self ≠ [])) →
  let r := add_result self type_ id_ status exists_ in
  exit_code r = NAGIOS_STATUS_OK
  ∧ warning r = [] ∧ critical r = [] ∧ not_found r = []
  ∨ exit_code r = NAGIOS_STATUS_WARNING
    ∧ warning r ≠ [] ∧ critical r = [] ∧ not_found r = []
  ∨ exit_code r = NAGIOS_STATUS_CRITICAL
    ∧ (critical r ≠ [] ∨ not_found r ≠ []).
Proof.
  intros Hself r.
  pose proof (add_result_bucket self type_ id_ status exists_) as Hb.
  pose proof (Hb BWarning) as Hwarning.
  pose proof (Hb BCritical) as Hcritical. pose proof (Hb BNotFound) as Hnot_found.
  simpl in Hwarning, Hcritical, Hnot_found. fold r in Hwarning, Hcritical, Hnot_found.
  assert (Hcode : exit_code r
    = Z.max (classify type_ id_ status exists_).1.2 (exit_code self))
    by apply add_result_exit_code.
  rewrite classify_bucket_code in Hcode.
  rewrite Hwarning, Hcritical, Hnot_found, Hcode.
  unfold NAGIOS_STATUS_OK, NAGIOS_STATUS_WARNING, NAGIOS_STATUS_CRITICAL in *.
  assert (Hsnoc : ∀ (l : list string) x, l ++ [x] ≠ []) by (by intros [|??] ?).
  destruct ((classify type_ id_ status exists_).1.1); simpl;
    destruct Hself as [(-> & -> & -> & ->) | [(-> & ? & -> & ->) | [-> [?|?]]]];
    simpl; auto 10.
Qed.

Lemma add_results_severity_buckets (calls : list call) :
  let r := add_results Results_init calls in
  exit_code r = NAGIOS_STATUS_OK
  ∧ warning r = [] ∧ critical r = [] ∧ not_found r = []
  ∨ exit_code r = NAGIOS_STATUS_WARNING
    ∧ warning r ≠ [] ∧ critical r = [] ∧ not_found r = []
  ∨ exit_code r = NAGIOS_STATUS_CRITICAL
    ∧ (critical r ≠ [] ∨ not_found r ≠ []).
Proof.
  unfold add_results.
  assert (Hstart : exit_code Results_init = NAGIOS_STATUS_OK
     ∧ warning Results_init = [] ∧ critical Results_init = []
     ∧ not_found Results_init = []
     ∨ exit_code Results_init = NAGIOS_STATUS_WARNING
       ∧ warning Results_init ≠ [] ∧ critical Results_init = []
       ∧ not_found Results_init = []
     ∨ exit_code Results_init = NAGIOS_STATUS_CRITICAL
       ∧ (critical Results_init ≠ [] ∨ not_found Results_init ≠ [])) by by left.
  revert Hstart. generalize Results_init.
  induction calls as [|c calls IH]; intros self Hstart; [done|].
  simpl. apply IH. by apply add_result_severity_buckets.
Qed.

(** X7: after any sequence of [add_result] calls on a fresh [Results]
    object, the exit code says which buckets are filled: it is OK exactly
    when only the [ok] bucket may hold identifiers, WARNING exactly when
    [warning] holds some and [critical] and [not_found] hold none, and
    CRITICAL exactly when [critical] or [not_found] holds some. *)
Theorem exit_code_matches_buckets (calls : list call) :
  let r := add_results Results_init calls in
  (exit_code r = NAGIOS_STATUS_OK
   ↔ warning r = [] ∧ critical r = [] ∧ not_found r = [])
  ∧ (exit_code r = NAGIOS_STATUS_WARNING
     ↔ warning r ≠ [] ∧ critical r = [] ∧ not_found r = [])
  ∧ (exit_code r = NAGIOS_STATUS_CRITICAL
     ↔ critical r ≠ [] ∨ not_found r ≠ []).
Proof.
  intros r. pose proof (add_results_severity_buckets calls) as Hinv.
  simpl in Hinv. fold r in Hinv.
  unfold NAGIOS_STATUS_OK, NAGIOS_STATUS_WARNING, NAGIOS_STATUS_CRITICAL in *.
  destruct Hinv as [(-> & -> & -> & ->) | [(-> & ? & -> & ->) | [-> [?|?]]]];
    split_and!; split; try done; try lia; try tauto; intros; intuition congruence.
Qed.

(** ** The order of the calls *)

Lemma max_severity_Permutation (l k : list (Z * string)) (start : Z) :
  l ≡ₚ k → foldr (λ e m, Z.max e.1 m) start l = foldr (λ e m, Z.max e.1 m) start k.
Proof.
  induction 1 as [|x l k _ IH|x y l|l k j _ IH1 _ IH2]; simpl.
  - done.
  - by rewrite IH.
  - lia.
  - by rewrite IH1.
Qed.

Lemma sorted_reverse_Permutation_eq (l k : list (Z * string)) :
  l ≡ₚ k → sorted_reverse l = sorted_reverse k.
Proof.
  intros Hperm. apply sorted_reverse_unique; [|apply sorted_reverse_descending].
  by rewrite sorted_reverse_Permutation.
Qed.

Lemma bool_decide_nonempty_length {A} `{EqDecision A} (l k : list A) :
  length l = length k → bool_decide (l ≠ []) = bool_decide (k ≠ []).
Proof. by destruct l, k. Qed.

(** The title is fixed by the sizes of the buckets and the count. *)
Lemma _create_title_lengths (resource : string) (r1 r2 : Results) :
  (∀ b, length (bucket_ids r1 b) = length (bucket_ids r2 b)) →
  count r1 = count r2 →
  _create_title resource r1 = _create_title resource r2.
Proof.
  intros Hb Hcount. unfold _create_title.
  pose proof (Hb BOk) as Hok. pose proof (Hb BWarning) as Hwarning.
  pose proof (Hb BCritical) as Hcritical. pose proof (Hb BNotFound) as Hnot_found.
  simpl in Hok, Hwarning, Hcritical, Hnot_found.
  rewrite Hcount, Hok, Hwarning, Hcritical, Hnot_found.
  rewrite (bool_decide_nonempty_length _ _ Hok),
    (bool_decide_nonempty_length _ _ Hwarning),
    (bool_decide_nonempty_length _ _ Hcritical),
    (bool_decide_nonempty_length _ _ Hnot_found).
  done.
Qed.

(** Permuted calls give the same report. *)
Lemma nagios_output_Permutation (resource : string) (calls1 calls2 : list call) :
  calls1 ≡ₚ calls2 →
  nagios_output resource (add_results Results_init calls1)
  = nagios_output resource (add_results Results_init calls2).
Proof.
  intros Hperm.
  assert (Hcode : exit_code (add_results Results_init calls1)
                  = exit_code (add_results Results_init calls2)).
  { rewrite !add_results_exit_code. apply max_severity_Permutation.
    by apply fmap_Permutation. }
  assert (Hmessages : messages (add_results Results_init calls1)
                      = messages (add_results Results_init calls2)).
  { unfold messages. f_equal. apply sorted_reverse_Permutation_eq.
    rewrite !add_results_messages. simpl. by apply fmap_Permutation. }
  assert (Htitle : _create_title resource (add_results Results_init calls1)
                   = _create_title resource (add_results Results_init calls2)).
  { apply _create_title_lengths.
    - intros b. rewrite !add_results_bucket, !length_app, !length_fmap. f_equal.
      apply Permutation_length. by apply filter_Permutation.
    - rewrite !add_results_count. f_equal. by apply Permutation_length. }
  unfold nagios_output, nagios_text. by rewrite Hcode, Hmessages, Htitle.
Qed.

(** X8: the report does not depend on the order in which the results were
    added: two sequences of [add_result] calls that are permutations of each
    other give the same [nagios_output]. *)
Theorem nagios_output_order_independent (resource : string) (calls1 calls2 : list call) :
  calls1 ≡ₚ calls2 →
  nagios_output resource (add_results Results_init calls1)
  = nagios_output resource (add_results Results_init calls2).
Proof. apply nagios_output_Permutation. Qed.

Lemma nagios_output_order_independent_witness :
  nagios_output "server" (add_results Results_init calls_mixed)
  = nagios_output "server" (add_results Results_init (reverse calls_mixed)).
Proof.
  apply (nagios_output_order_independent "server" calls_mixed (reverse calls_mixed)).
  symmetry. apply reverse_Permutation.
Defined.

Lemma check_results_in_calls (order : list string) (resource_type : string)
    (resources : list Resource) (ids : gset string) (skip : option (gset string))
    (select : option (gmap string string)) (check_all : bool) :
  check_results_in order resource_type resources ids skip select check_all
  = add_results Results_init
      ((resource_call resource_type
          <$> _resource_filter resources ids skip check_all select)
       ++ (id_call resource_type
             <$> filter (λ i, i ∉ resource_id
                                    <$> _resource_filter resources ids skip check_all select)
                   order)).
Proof.
  unfold check_results_in.
  by rewrite add_results_app, foldl_check_id, foldl_check_resource.
Qed.

(** X9: the report of [check] does not depend on the order in which the
    loop [for id_ in ids] visits the set: every order that visits each
    requested identifier once gives the output of [check_results]. *)
Theorem check_report_iteration_order (order : list string) (resource_type : string)
    (resources : list Resource) (ids : gset string) (skip : option (gset string))
    (select : option (gmap string string)) (check_all : bool) :
  order ≡ₚ elements ids →
  nagios_output resource_type
    (check_results_in order resource_type resources ids skip select check_all)
  = nagios_output resource_type
      (check_results resource_type resources ids skip select check_all).
Proof.
  intros Hperm. rewrite check_results_in_calls, check_results_calls.
  apply nagios_output_Permutation. unfold check_calls.
  apply Permutation_app; [done|]. apply fmap_Permutation. by apply filter_Permutation.
Qed.

Lemma check_report_iteration_order_witness :
  nagios_output "server"
    (check_results_in (reverse (elements ids_a_b)) "server" servers_a ids_a_b
       None None false)
  = nagios_output "server" (check_results "server" servers_a ids_a_b None None false).
Proof.
  apply (check_report_iteration_order (reverse (elements ids_a_b)) "server" servers_a
           ids_a_b None None false).
  apply reverse_Permutation.
Defined.

(** ** What a run reports *)

Lemma add_results_bucket_elem (calls : list call) (c : call) :
  c ∈ calls → call_id c ∈ bucket_ids (add_results Results_init calls) (call_bucket c).
Proof.
  intros Hc. rewrite add_results_bucket. apply elem_of_app. right.
  apply list_elem_of_fmap_2. by apply list_elem_of_filter.
Qed.

Lemma bucket_ids_all (r : Results) (b : bucket) (x : string) :
  x ∈ bucket_ids r b → x ∈ ok r ++ warning r ++ critical r ++ not_found r.
Proof. rewrite !elem_of_app. destruct b; simpl; auto. Qed.

(** X10: [check] reports every resource the selector yields and every
    requested identifier: each of them is in one of the four buckets, and
    the run has one entry for each filtered resource and one for each
    requested identifier that is not among them. *)
Theorem check_reports_everything (resource_type : string) (resources : list Resource)
    (ids : gset string) (skip : option (gset string))
    (select : option (gmap string string)) (check_all : bool) :
  let filtered := _resource_filter resources ids skip check_all select in
  let r := check_results resource_type resources ids skip select check_all in
  (∀ resource, resource ∈ filtered →
     resource_id resource ∈ ok r ++ warning r ++ critical r)
  ∧ (∀ id_, id_ ∈ ids → id_ ∈ ok r ++ warning r ++ critical r ++ not_found r)
  ∧ count r
    = (length filtered
       + length (filter (λ i, i ∉ resource_id <$> filtered) (elements ids)))%nat.
Proof.
  intros filtered r.
  assert (Hfiltered : ∀ resource, resource ∈ filtered →
    resource_id resource ∈ ok r ++ warning r ++ critical r).
  { intros resource Hres.
    assert (Hc : resource_call resource_type resource
                   ∈ check_calls resource_type resources ids skip select check_all).
    { unfold check_calls. apply elem_of_app. left. by apply list_elem_of_fmap_2. }
    apply add_results_bucket_elem in Hc.
    rewrite <-check_results_calls, call_id_resource_call in Hc. fold r in Hc.
    pose proof (call_bucket_resource_call resource_type resource) as Hb.
    rewrite !elem_of_app.
    destruct (call_bucket (resource_call resource_type resource)); simpl in Hc; auto.
    done. }
  split_and!.
  - done.
  - intros id_ Hid.
    destruct (decide (id_ ∈ resource_id <$> filtered)) as [Hchecked|Hunchecked].
    + apply list_elem_of_fmap in Hchecked as (resource & -> & Hres).
      apply Hfiltered in Hres. rewrite !elem_of_app in Hres |- *.
      destruct Hres as [? | [? | ?]]; [auto | auto |].
      right. right. apply elem_of_app. by left.
    + apply (bucket_ids_all r BNotFound). simpl. subst r.
      rewrite check_results_not_found. apply list_elem_of_filter.
      split; [done | by apply elem_of_elements].
  - subst r. rewrite check_results_calls, add_results_count. unfold check_calls.
    by rewrite length_app, !length_fmap.
Qed.

Lemma check_reports_everything_witness :
  "b" ∈ ok (check_results "server" servers_a ids_a_b None None false)
        ++ warning (check_results "server" servers_a ids_a_b None None false)
        ++ critical (check_results "server" servers_a ids_a_b None None false)
        ++ not_found (check_results "server" servers_a ids_a_b None None false).
Proof.
  apply (proj1 (proj2 (check_reports_everything "server" servers_a ids_a_b
                         None None false)) "b").
  apply (bool_decide_unpack _). vm_compute. exact I.
Defined.

Lemma try_check_nagios_output (resource : string) (calls : list call) :
  try_check (Some (nagios_output resource (add_results Results_init calls)))
  = exit_code (add_results Results_init calls).
Proof.
  rewrite (proj1 (nagios_output_branches _ _)).
  pose proof (add_results_exit_code_range calls) as Hrange.
  apply list_elem_of_In in Hrange. simpl in Hrange.
  by destruct Hrange as [<- | [<- | [<- | []]]].
Qed.

(** X11: on arguments that [parse_arguments] accepts, a run of [main]
    exits with 3 when connecting to the cloud or enumerating its resources
    fails; when the cloud answers, the run finds the resource type in
    [RESOURCES] and exits with the aggregate severity of the results of
    [check], which is 0, 1 or 2. *)
Theorem main_exit_code (args : Namespace) (resource : string)
    (ids skip : gset string) (select : gmap string string) (check_all : bool) :
  parse_arguments args = Parsed resource ids skip select check_all →
  main CloudFault args = Exit 3
  ∧ ∀ connection, ∃ enumerate,
      RESOURCES resource = Some enumerate
      ∧ main (CloudAnswers connection) args
        = Exit (exit_code (check_results resource (enumerate connection) ids
                             (Some skip) (Some select) check_all))
      ∧ main (CloudAnswers connection) args ∈ [Exit 0; Exit 1; Exit 2].
Proof.
  intros Hparsed. split.
  { unfold main. by rewrite Hparsed. }
  intros connection.
  destruct (parse_arguments_Parsed _ _ _ _ _ _ Hparsed)
    as (_ & [enumerate Henumerate] & _).
  exists enumerate. split; [done|].
  assert (Hmain : main (CloudAnswers connection) args
    = Exit (exit_code (check_results resource (enumerate connection) ids
                         (Some skip) (Some select) check_all))).
  { unfold main, check_cloud, check. rewrite Hparsed, Henumerate.
    by rewrite check_results_calls, try_check_nagios_output. }
  split; [done|]. rewrite Hmain, check_results_calls.
  pose proof (add_results_exit_code_range
    (check_calls resource (enumerate connection) ids (Some skip) (Some select) check_all))
    as Hrange.
  apply list_elem_of_In in Hrange. simpl in Hrange.
  destruct Hrange as [<- | [<- | [<- | []]]]; apply list_elem_of_In; simpl; auto.
Qed.

Lemma main_exit_code_witness :
  main CloudFault ns_all_servers = Exit 3
  ∧ main (CloudAnswers (cloud_of_servers servers_a)) ns_all_servers = Exit 0.
Proof.
  assert (Hparsed : parse_arguments ns_all_servers
                    = Parsed "server" ∅ {["x"]} {["subnet" := "net-a"]} true).
  { vm_compute. reflexivity. }
  destruct (main_exit_code ns_all_servers "server" ∅ {["x"]} {["subnet" := "net-a"]}
              true Hparsed) as [Hfault Hanswers].
  split; [exact Hfault|].
  destruct (Hanswers (cloud_of_servers servers_a)) as (enumerate & Henumerate & Hmain & _).
  rewrite Hmain. vm_compute in Henumerate. injection Henumerate as <-.
  vm_compute. reflexivity.
Defined.

(** X12: [parse_arguments] accepts every namespace that names a resource
    type of [RESOURCES], selects either [--all] on a type that is not
    existence-only without [--id], or some [--id] without [--all],
    [--skip-id] and [--select], and whose [--select] values all have an
    "=". *)
Theorem parse_arguments_accepts (args : Namespace) :
  is_Some (RESOURCES (ns_resource args)) →
  (ns_all args = true ∧ (ns_resource args ∉ RESOURCES_BY_EXISTENCE) ∧ ns_id args = []
   ∨ ns_all args = false ∧ ns_id args ≠ [] ∧ ns_skip_id args = []
     ∧ ns_select args = []) →
  Forall (λ arg, "="%char ∈ String.list_ascii_of_string arg) (ns_select args) →
  ∃ select,
    parse_arguments args
    = Parsed (ns_resource args) (list_to_set (ns_id args))
        (list_to_set (ns_skip_id args)) select (ns_all args).
Proof.
  intros Hsupported Hmode Hselect. unfold parse_arguments.
  rewrite decide_False by (by apply not_eq_None_Some).
  assert (Hdict : is_Some (dict_of_items (ns_select args) ∅)).
  { apply not_eq_None_Some. intros Hnone.
    apply (proj1 (dict_of_items_None _ _)) in Hnone as (arg & Harg & Hnot).
    rewrite Forall_forall in Hselect. by apply Hnot, Hselect. }
  destruct Hdict as [select Hdict]. exists select. rewrite Hdict.
  destruct Hmode as [(-> & Hexistence & ->) | (-> & Hid & -> & ->)]; simpl.
  - by rewrite bool_decide_eq_false_2 by done.
  - by rewrite bool_decide_eq_false_2 by done.
Qed.

Lemma parse_arguments_accepts_witness :
  ∃ select, parse_arguments ns_all_servers
            = Parsed "server" (list_to_set []) (list_to_set ["x"]) select true.
Proof.
  apply (parse_arguments_accepts ns_all_servers).
  - by eexists.
  - left. split; [reflexivity|]. split; [|reflexivity].
    apply (bool_decide_unpack _). vm_compute. exact I.
  - apply (bool_decide_unpack _). vm_compute. exact I.
Defined.

(** X13: when the aggregate of a sequence of [add_result] calls is OK, the
    title counts every entry as passed: it reads "<resource>s n/n passed"
    for the n calls made, and "<resource>s " when no call was made. *)
Theorem ok_title (resource : string) (calls : list call) :
  exit_code (add_results Results_init calls) = NAGIOS_STATUS_OK →
  _create_title resource (add_results Results_init calls)
  = if decide (calls = []) then resource +:+ "s "
    else resource +:+ "s " +:+ pretty (length calls) +:+ "/" +:+ pretty (length calls)
         +:+ " passed".
Proof.
  intros Hcode.
  destruct (add_results_severity_buckets calls)
    as [(_ & Hwarning & Hcritical & Hnot_found) | [[Hne _] | [Hne _]]];
    [|simpl in Hne; rewrite Hne in Hcode; discriminate..].
  pose proof (add_results_bucket_lengths Results_init calls) as Hlengths.
  simpl in Hwarning, Hcritical, Hnot_found.
  rewrite Hwarning, Hcritical, Hnot_found in Hlengths. simpl in Hlengths.
  unfold _create_title. rewrite Hwarning, Hcritical, Hnot_found. simpl.
  rewrite add_results_count. simpl.
  assert (Hok : length (ok (add_results Results_init calls)) = length calls) by lia.
  rewrite Hok.
  destruct calls as [|c calls].
  - by destruct (ok (add_results Results_init [])).
  - rewrite decide_False by done.
    destruct (ok (add_results Results_init (c :: calls))); [done|].
    by rewrite bool_decide_eq_true_2 by done.
Qed.

Lemma ok_title_witness :
  _create_title "port"
    (add_results Results_init
       [ {| call_type := "port"; call_id := "p1"; call_status := PyStr "ACTIVE";
            call_exists := true |} ])
  = "ports 1/1 passed".
Proof.
  exact (ok_title "port"
           [ {| call_type := "port"; call_id := "p1"; call_status := PyStr "ACTIVE";
                call_exists := true |} ] eq_refl).
Defined.

(** ** Texts: containment and stripping *)

Lemma prefix_app (sub s : string) :
  String.prefix sub s = true ↔ ∃ q, s = sub +:+ q.
Proof.
  revert s. induction sub as [|a sub IH]; intros s.
  - split; [|intros _; by destruct s]. intros _. by exists s.
  - destruct s as [|b s]; simpl.
    + split; [done|]. by intros [q Hq].
    + destruct (ascii_dec a b) as [->|Hab].
      * rewrite IH. split; intros [q Hq]; exists q.
        -- by rewrite append_cons, <-Hq.
        -- rewrite append_cons in Hq. by simplify_eq.
      * split; [done|]. intros [q Hq]. rewrite append_cons in Hq. by simplify_eq.
Qed.

(** [contains sub s] holds when [sub] occurs in [s]. *)
Lemma contains_app (sub s : string) :
  contains sub s = true ↔ ∃ p q, s = p +:+ sub +:+ q.
Proof.
  induction s as [|b s IH].
  - cbn [contains]. rewrite orb_false_r, prefix_app. split.
    + intros [q Hq]. by exists "", q.
    + intros (p & q & Hpq). destruct p as [|a p]; [by exists q|].
      by rewrite append_cons in Hpq.
  - cbn [contains]. rewrite orb_true_iff, prefix_app, IH. split.
    + intros [[q Hq] | (p & q & Hpq)].
      * by exists "", q.
      * exists (String b p), q. by rewrite append_cons, <-Hpq.
    + intros (p & q & Hpq). destruct p as [|a p].
      * left. by exists q.
      * right. rewrite append_cons in Hpq. simplify_eq. by exists p, q.
Qed.

(** The first and the last character of a text. *)
Lemma lstrip_spec (chars : list ascii) (s : string) :
  ∃ p, s = p +:+ lstrip chars s
       ∧ Forall (λ c, c ∈ chars) (String.list_ascii_of_string p)
       ∧ ∀ c rest, lstrip chars s = String c rest → c ∉ chars.
Proof.
  induction s as [|a s (p & Hp & Hchars & Hhead)]; simpl.
  - exists "". split_and!; [done | constructor | done].
  - case_bool_decide as Ha.
    + exists (String a p). split_and!.
      * by rewrite append_cons, <-Hp.
      * by constructor.
      * done.
    + exists "". split_and!; [done | constructor |].
      by intros c rest [= <- _].
Qed.

Lemma rstrip_spec (chars : list ascii) (s : string) :
  ∃ q, s = rstrip chars s +:+ q
       ∧ Forall (λ c, c ∈ chars) (String.list_ascii_of_string q)
       ∧ ∀ c, last (String.list_ascii_of_string (rstrip chars s)) = Some c → c ∉ chars.
Proof.
  induction s as [|a s (q & Hq & Hchars & Hlast)]; simpl.
  - exists "". split_and!; [done | constructor | done].
  - destruct (rstrip chars s) as [|b kept] eqn:Hkept.
    + rewrite append_nil_l in Hq. subst q.
      case_bool_decide as Ha.
      * exists (String a s). split_and!; [done | by constructor | done].
      * exists s. split_and!; [done | done |]. by intros c [= <-].
    + exists q. split_and!; [by rewrite append_cons, <-Hq | done |].
      intros c Hc. apply Hlast. by rewrite <-Hc.
Qed.

Lemma rstrip_head (chars : list ascii) (s : string) (c : ascii) (rest : string) :
  rstrip chars s = String c rest → ∃ rest', s = String c rest'.
Proof.
  destruct s as [|a s]; simpl; [done|].
  destruct (rstrip chars s); [case_bool_decide|]; intros [= <- _]; by eexists.
Qed.

(** [strip] removes characters of [chars] from both ends and nothing else,
    and leaves none of them at either end. *)
Lemma strip_spec (chars : list ascii) (s : string) :
  ∃ p q,
    s = p +:+ strip chars s +:+ q
    ∧ Forall (λ c, c ∈ chars) (String.list_ascii_of_string p)
    ∧ Forall (λ c, c ∈ chars) (String.list_ascii_of_string q)
    ∧ (∀ c rest, strip chars s = String c rest → c ∉ chars)
    ∧ (∀ c, last (String.list_ascii_of_string (strip chars s)) = Some c → c ∉ chars).
Proof.
  unfold strip.
  destruct (lstrip_spec chars s) as (p & Hp & Hpchars & Hhead).
  destruct (rstrip_spec chars (lstrip chars s)) as (q & Hq & Hqchars & Hlast).
  exists p, q. split_and!; [|done|done| |done].
  - by rewrite <-Hq.
  - intros c rest Hc. apply rstrip_head in Hc as [rest' Hc]. by eapply Hhead.
Qed.

(** ** get_os_credentials *)

Lemma filter_missing_cons (d : gmap string string) (k : string) (l : list string) :
  filter (λ k, d !! k = None) (k :: l)
  = match d !! k with
    | Some _ => filter (λ k, d !! k = None) l
    | None => k :: filter (λ k, d !! k = None) l
    end.
Proof. rewrite filter_cons. by destruct (d !! k). Qed.

Lemma get_os_credentials_v3 (d : gmap string string)
    (url username password region project domain : string) :
  d !! "auth_url" = Some url → url ≠ "" → contains "/v3" url = true →
  d !! "username" = Some username → d !! "password" = Some password →
  d !! "region_name" = Some region → d !! "credentials_project" = Some project →
  d !! "domain" = Some domain →
  get_os_credentials d
  = Creds (<["project_domain_name" := CStr domain]>
             (<["user_domain_name" := CStr domain]>
                (<["project_name" := CStr project]>
                   (<["auth_url" := CStr (strip quotes url)]>
                      (<["region_name" := CStr region]>
                         (<["password" := CStr password]>
                            (<["username" := CStr username]>
                               {["auth_version" := CInt 3]}))))))).
Proof.
  intros Hurl Hne Hv3 Huser Hpass Hregion Hproject Hdomain.
  unfold get_os_credentials. rewrite Hurl, (bool_decide_eq_false_2 _ Hne), Hv3.
  unfold common_attrs. cbn [app].
  rewrite !filter_missing_cons, Huser, Hpass, Hregion, Hurl, Hproject, Hdomain.
  rewrite filter_nil. simpl. unfold get_value.
  rewrite lookup_insert_eq.
  rewrite (lookup_insert_ne d "auth_url" "credentials_project") by discriminate.
  rewrite (lookup_insert_ne d "auth_url" "domain") by discriminate.
  rewrite (lookup_insert_ne d "auth_url" "region_name") by discriminate.
  rewrite (lookup_insert_ne d "auth_url" "password") by discriminate.
  rewrite (lookup_insert_ne d "auth_url" "username") by discriminate.
  by rewrite Huser, Hpass, Hregion, Hproject, Hdomain.
Qed.

Lemma get_os_credentials_v2 (d : gmap string string)
    (url username password region project : string) :
  d !! "auth_url" = Some url → url ≠ "" → contains "/v3" url = false →
  d !! "username" = Some username → d !! "password" = Some password →
  d !! "region_name" = Some region → d !! "credentials_project" = Some project →
  get_os_credentials d
  = Creds (<["tenant_name" := CStr project]>
             (<["auth_url" := CStr (strip quotes url)]>
                (<["region_name" := CStr region]>
                   (<["password" := CStr password]>
                      (<["username" := CStr username]> ∅))))).
Proof.
  intros Hurl Hne Hv3 Huser Hpass Hregion Hproject.
  unfold get_os_credentials. rewrite Hurl, (bool_decide_eq_false_2 _ Hne), Hv3.
  unfold common_attrs. cbn [app].
  rewrite !filter_missing_cons, Huser, Hpass, Hregion, Hurl, Hproject.
  rewrite filter_nil. simpl. unfold get_value.
  rewrite lookup_insert_eq.
  rewrite (lookup_insert_ne d "auth_url" "credentials_project") by discriminate.
  rewrite (lookup_insert_ne d "auth_url" "region_name") by discriminate.
  rewrite (lookup_insert_ne d "auth_url" "password") by discriminate.
  rewrite (lookup_insert_ne d "auth_url" "username") by discriminate.
  by rewrite Huser, Hpass, Hregion, Hproject.
Qed.

(** With an [auth_url], an option that is required and absent gives the
    error that lists the absent ones. *)
Lemma get_os_credentials_missing (d : gmap string string) (url : string) :
  d !! "auth_url" = Some url → url ≠ "" →
  filter (λ k, d !! k = None)
    (common_attrs ++ (if contains "/v3" url then ["domain"] else [])) ≠ [] →
  get_os_credentials d
  = OSCCredentialsError
      (join ", " (filter (λ k, d !! k = None)
                    (common_attrs ++ (if contains "/v3" url then ["domain"] else [])))).
Proof.
  intros Hurl Hne Hmissing.
  unfold get_os_credentials. rewrite Hurl, (bool_decide_eq_false_2 _ Hne).
  destruct (contains "/v3" url); by rewrite (bool_decide_eq_true_2 _ Hmissing).
Qed.

Lemma filter_missing_nil (d : gmap string string) (l : list string) :
  filter (λ k, d !! k = None) l = [] ↔ Forall (λ k, is_Some (d !! k)) l.
Proof.
  induction l as [|k l IH]; [by split; [constructor|]|].
  rewrite filter_missing_cons, Forall_cons, <-IH.
  destruct (d !! k) eqn:Hk.
  - split; [by intros ?; split; [eexists|] | by intros [_ ?]].
  - split; [done|]. by intros [[? ?] _].
Qed.

Lemma get_os_credentials_cases (d : gmap string string) :
  (d !! "auth_url" = None ∨ d !! "auth_url" = Some "")
  ∧ get_os_credentials d = OSCCredentialsError "auth_url is missing"
  ∨ ∃ url, d !! "auth_url" = Some url ∧ url ≠ ""
    ∧ (¬ Forall (λ k, is_Some (d !! k))
           (common_attrs ++ (if contains "/v3" url then ["domain"] else []))
       ∧ get_os_credentials d
         = OSCCredentialsError
             (join ", " (filter (λ k, d !! k = None)
                (common_attrs ++ (if contains "/v3" url then ["domain"] else []))))
       ∨ Forall (λ k, is_Some (d !! k))
           (common_attrs ++ (if contains "/v3" url then ["domain"] else []))
         ∧ ∃ username password region project,
             d !! "username" = Some username ∧ d !! "password" = Some password
             ∧ d !! "region_name" = Some region
             ∧ d !! "credentials_project" = Some project
             ∧ (contains "/v3" url = true
                ∧ (∃ domain, d !! "domain" = Some domain
                   ∧ get_os_credentials d
                     = Creds (<["project_domain_name" := CStr domain]>
                        (<["user_domain_name" := CStr domain]>
                           (<["project_name" := CStr project]>
                              (<["auth_url" := CStr (strip quotes url)]>
                                 (<["region_name" := CStr region]>
                                    (<["password" := CStr password]>
                                       (<["username" := CStr username]>
                                          {["auth_version" := CInt 3]}))))))))
                ∨ contains "/v3" url = false
                  ∧ get_os_credentials d
                    = Creds (<["tenant_name" := CStr project]>
                       (<["auth_url" := CStr (strip quotes url)]>
                          (<["region_name" := CStr region]>
                             (<["password" := CStr password]>
                                (<["username" := CStr username]> ∅))))))).
Proof.
  destruct (d !! "auth_url") as [url|] eqn:Hurl.
  2: { left. split; [by left|]. unfold get_os_credentials. by rewrite Hurl. }
  destruct (decide (url = "")) as [->|Hne].
  { left. split; [by right|]. unfold get_os_credentials. by rewrite Hurl. }
  right. exists url. split; [done|]. split; [done|].
  destruct (decide (Forall (λ k, is_Some (d !! k))
    (common_attrs ++ (if contains "/v3" url then ["domain"] else [])))) as [Hall|Hnot].
  - right. split; [done|].
    apply Forall_app in Hall as [Hcommon Hextra].
    unfold common_attrs in Hcommon.
    repeat (apply Forall_cons in Hcommon as [[? ?] Hcommon]).
    do 4 eexists. split_and!; [done..|].
    destruct (contains "/v3" url) eqn:Hv3.
    + left. split; [done|]. apply Forall_cons in Hextra as [[domain Hdomain] _].
      exists domain. split; [done|]. by eapply get_os_credentials_v3.
    + right. split; [done|]. by eapply get_os_credentials_v2.
  - left. split; [done|]. apply get_os_credentials_missing; [done..|].
    by rewrite filter_missing_nil.
Qed.

(** X14: [get_os_credentials] returns credentials exactly when the options
    hold a nonempty [auth_url], the four other common options and, if the
    URL contains "/v3", [domain]; without an [auth_url], or with an empty
    one, it raises the error "auth_url is missing"; and its indexings never
    raise [KeyError]. *)
Theorem get_os_credentials_outcome (d : gmap string string) :
  get_os_credentials d ≠ KeyError
  ∧ ((∃ creds, get_os_credentials d = Creds creds)
     ↔ ∃ url, d !! "auth_url" = Some url ∧ url ≠ ""
         ∧ Forall (λ k, is_Some (d !! k)) common_attrs
         ∧ ((∃ p q, url = p +:+ "/v3" +:+ q) → is_Some (d !! "domain")))
  ∧ (d !! "auth_url" = None ∨ d !! "auth_url" = Some "" →
     get_os_credentials d = OSCCredentialsError "auth_url is missing").
Proof.
  destruct (get_os_credentials_cases d)
    as [[Hurl Herror] | (url & Hurl & Hne & [[Hnot Herror] | [Hall Hcreds]])].
  - rewrite Herror. split_and!; [done | | done].
    split; [by intros [? ?]|]. intros (url & Hurl' & Hne & _).
    destruct Hurl as [Hurl | Hurl]; congruence.
  - rewrite Herror. split_and!; [done | | intros [?|?]; congruence].
    split; [by intros [? ?]|]. intros (url' & Hurl' & _ & Hcommon & Hdomain).
    exfalso. apply Hnot. assert (url' = url) as -> by congruence.
    apply Forall_app. split; [done|].
    destruct (contains "/v3" url) eqn:Hv3; [|constructor].
    constructor; [|constructor]. by apply Hdomain, contains_app.
  - apply Forall_app in Hall as [Hcommon Hextra].
    assert (Hsuccess : ∃ creds, get_os_credentials d = Creds creds).
    { destruct Hcreds as (? & ? & ? & ? & _ & _ & _ & _ & [[_ (? & _ & ->)] | [_ ->]]);
        by eexists. }
    split_and!.
    + by destruct Hsuccess as [creds ->].
    + split; [|done]. intros _. exists url. split_and!; [done..|].
      intros Hv3%contains_app. rewrite Hv3 in Hextra.
      by apply Forall_cons in Hextra as [? _].
    + intros [?|?]; congruence.
Qed.

Lemma get_os_credentials_outcome_witness :
  ∃ creds, get_os_credentials ident_creds_v3 = Creds creds.
Proof.
  apply (proj2 (proj1 (proj2 (get_os_credentials_outcome ident_creds_v3)))).
  exists "'http://10.0.0.1:5000/v3'". split_and!.
  - reflexivity.
  - discriminate.
  - apply (bool_decide_unpack _). vm_compute. exact I.
  - intros _. by eexists.
Defined.

(** X15: the credentials [get_os_credentials] returns hold the user name,
    the password, the region and the [auth_url] without its quotes; for a
    URL with "/v3" they also hold [auth_version] 3, the project as
    [project_name] and the domain as the user and project domain, otherwise
    the project as [tenant_name]; they hold nothing else. *)
Theorem get_os_credentials_creds (d : gmap string string)
    (creds : gmap string cred_value) :
  get_os_credentials d = Creds creds →
  ∃ url,
    d !! "auth_url" = Some url
    ∧ creds !! "auth_url" = Some (CStr (strip quotes url))
    ∧ creds !! "username" = CStr <$> d !! "username"
    ∧ creds !! "password" = CStr <$> d !! "password"
    ∧ creds !! "region_name" = CStr <$> d !! "region_name"
    ∧ ((∃ p q, url = p +:+ "/v3" +:+ q)
       ∧ creds !! "auth_version" = Some (CInt 3)
       ∧ creds !! "project_name" = CStr <$> d !! "credentials_project"
       ∧ creds !! "user_domain_name" = CStr <$> d !! "domain"
       ∧ creds !! "project_domain_name" = CStr <$> d !! "domain"
       ∧ dom creds = {["auth_version"; "username"; "password"; "region_name";
                       "auth_url"; "project_name"; "user_domain_name";
                       "project_domain_name"]}
       ∨ (¬ ∃ p q, url = p +:+ "/v3" +:+ q)
         ∧ creds !! "tenant_name" = CStr <$> d !! "credentials_project"
         ∧ dom creds = {["username"; "password"; "region_name"; "auth_url";
                         "tenant_name"]}).
Proof.
  intros Hcreds.
  destruct (get_os_credentials_cases d)
    as [[_ Herror] | (url & Hurl & Hne & [[_ Herror] | [_ Hsuccess]])];
    [congruence.. |].
  destruct Hsuccess as (username & password & region & project & Huser & Hpass
                        & Hregion & Hproject & Hversion).
  exists url. rewrite Huser, Hpass, Hregion, Hproject.
  destruct Hversion as [[Hv3 (domain & Hdomain & Heq)] | [Hv2 Heq]];
    rewrite Heq in Hcreds; injection Hcreds as <-; rewrite ?Hdomain.
  - split_and!; [done | by simplify_map_eq..|].
    left. split_and!; [by apply contains_app | by simplify_map_eq..|].
    rewrite !dom_insert_L, dom_singleton_L. set_solver.
  - split_and!; [done | by simplify_map_eq..|].
    right. split_and!; [| by simplify_map_eq |].
    + intros Hv3%contains_app. congruence.
    + rewrite !dom_insert_L, dom_empty_L. set_solver.
Qed.

Lemma get_os_credentials_creds_witness :
  ∃ creds, get_os_credentials ident_creds_v3 = Creds creds
           ∧ creds !! "auth_url" = Some (CStr "http://10.0.0.1:5000/v3").
Proof.
  destruct (get_os_credentials ident_creds_v3) as [message| |creds] eqn:Hcreds;
    [vm_compute in Hcreds; discriminate.. |].
  exists creds. split; [reflexivity|].
  destruct (get_os_credentials_creds ident_creds_v3 creds Hcreds)
    as (url & Hurl & Hauth & _).
  vm_compute in Hurl. injection Hurl as <-. exact Hauth.
Defined.

(** X16: the [auth_url] of the returned credentials is the configured one
    with quote characters removed from its two ends, and from there only:
    the configured URL is the returned one between two runs of quotes, and
    the returned one neither starts nor ends with a quote. *)
Theorem get_os_credentials_auth_url (d : gmap string string)
    (creds : gmap string cred_value) :
  get_os_credentials d = Creds creds →
  ∃ url stripped p q,
    d !! "auth_url" = Some url
    ∧ creds !! "auth_url" = Some (CStr stripped)
    ∧ url = p +:+ stripped +:+ q
    ∧ Forall (λ c, c ∈ quotes) (String.list_ascii_of_string p)
    ∧ Forall (λ c, c ∈ quotes) (String.list_ascii_of_string q)
    ∧ (∀ c rest, stripped = String c rest → c ∉ quotes)
    ∧ (∀ c, last (String.list_ascii_of_string stripped) = Some c → c ∉ quotes).
Proof.
  intros Hcreds.
  assert (Hauth : ∃ url, d !! "auth_url" = Some url
                         ∧ creds !! "auth_url" = Some (CStr (strip quotes url))).
  { destruct (get_os_credentials_cases d)
      as [[_ Herror] | (url & Hurl & Hne & [[_ Herror] | [_ Hsuccess]])];
      [congruence.. |].
    exists url. split; [done|].
    destruct Hsuccess as (? & ? & ? & ? & _ & _ & _ & _
                          & [[_ (? & _ & Heq)] | [_ Heq]]);
      rewrite Heq in Hcreds; injection Hcreds as <-; by simplify_map_eq. }
  destruct Hauth as (url & Hurl & Hauth).
  destruct (strip_spec quotes url) as (p & q & Hpq & Hp & Hq & Hhead & Hlast).
  by exists url, (strip quotes url), p, q.
Qed.

Lemma get_os_credentials_auth_url_witness :
  ∃ creds stripped,
    get_os_credentials ident_creds_v3 = Creds creds
    ∧ creds !! "auth_url" = Some (CStr stripped)
    ∧ ∀ c rest, stripped = String c rest → c ∉ quotes.
Proof.
  destruct (get_os_credentials ident_creds_v3) as [message| |creds] eqn:Hcreds;
    [vm_compute in Hcreds; discriminate.. |].
  destruct (get_os_credentials_auth_url ident_creds_v3 creds Hcreds)
    as (url & stripped & p & q & _ & Hauth & _ & _ & _ & Hhead & _).
  exists creds, stripped. split; [reflexivity|]. split; [exact Hauth | exact Hhead].
Defined.

(** ** The exit code of a run *)

Lemma entry_of_call_bucket (c : call) :
  (entry_of_call c).1
  = match call_bucket c with
    | BOk => NAGIOS_STATUS_OK
    | BWarning => NAGIOS_STATUS_WARNING
    | BCritical | BNotFound => NAGIOS_STATUS_CRITICAL
    end.
Proof. rewrite entry_of_call_classify. apply classify_bucket_code. Qed.

(** The aggregate is OK when every call put its identifier in [ok], and
    CRITICAL when some call put it in [critical] or [not_found]. *)
Lemma add_results_exit_code_buckets (calls : list call) :
  (exit_code (add_results Results_init calls) = NAGIOS_STATUS_OK
   ↔ ∀ c, c ∈ calls → call_bucket c = BOk)
  ∧ (exit_code (add_results Results_init calls) = NAGIOS_STATUS_CRITICAL
     ↔ ∃ c, c ∈ calls ∧ (call_bucket c = BCritical ∨ call_bucket c = BNotFound)).
Proof.
  rewrite add_results_exit_code. simpl.
  change (foldr _ 0 ?l) with (max_severity l).
  split.
  - split.
    + intros Hmax c Hc.
      pose proof (max_severity_upper _ _ (list_elem_of_fmap_2 entry_of_call _ _ Hc)) as Hle.
      rewrite Hmax, entry_of_call_bucket in Hle.
      by destruct (call_bucket c).
    + intros Hok.
      destruct (max_severity_attained (entry_of_call <$> calls))
        as [Hmax | (e & (c & -> & Hc)%list_elem_of_fmap & Hmax)]; [done|].
      by rewrite <-Hmax, entry_of_call_bucket, (Hok c Hc).
  - split.
    + intros Hmax.
      destruct (max_severity_attained (entry_of_call <$> calls))
        as [Hzero | (e & (c & -> & Hc)%list_elem_of_fmap & Hattained)].
      { rewrite Hzero in Hmax. discriminate. }
      exists c. split; [done|]. rewrite Hmax, entry_of_call_bucket in Hattained.
      destruct (call_bucket c); try discriminate; auto.
    + intros (c & Hc & Hb).
      assert (Hentry : (NAGIOS_STATUS_CRITICAL, (entry_of_call c).2)
                         ∈ entry_of_call <$> calls).
      { apply list_elem_of_fmap. exists c. split; [|done].
        pose proof (entry_of_call_bucket c) as Hcode.
        destruct (entry_of_call c) as [code m]. simpl in *. rewrite Hcode.
        by destruct Hb as [-> | ->]. }
      apply critical_entry_exit_code in Hentry.
      by rewrite add_results_exit_code in Hentry.
Qed.

(** The bucket of the call for a resource of a type that is not
    existence-only follows its status. *)
Lemma call_bucket_by_status (resource_type : string) (resource : Resource) :
  resource_type ∉ RESOURCES_BY_EXISTENCE →
  (call_bucket (resource_call resource_type resource) = BOk
   ↔ getattr resource "status" (PyStr "UNKNOWN") = PyStr "ACTIVE")
  ∧ (call_bucket (resource_call resource_type resource) = BCritical
     ↔ getattr resource "status" (PyStr "UNKNOWN") = PyStr "DOWN")
  ∧ call_bucket (resource_call resource_type resource) ≠ BNotFound.
Proof.
  intros Hty. unfold call_bucket, resource_call.
  rewrite (bool_decide_eq_true_2 _ Hty). simpl. unfold classify.
  rewrite (bool_decide_eq_false_2 (resource_type ∈ RESOURCES_BY_EXISTENCE)) by done.
  rewrite !andb_false_r. simpl.
  destruct (decide (getattr resource "status" (PyStr "UNKNOWN") = PyStr "ACTIVE"))
    as [->|Hactive]; [done|].
  destruct (decide (getattr resource "status" (PyStr "UNKNOWN") = PyStr "DOWN"))
    as [->|Hdown]; [done|].
  done.
Qed.

(** X17: a run with [--all] on a resource type that is not existence-only
    is OK exactly when every resource the selector yields has the status
    ACTIVE, and CRITICAL exactly when one of them has the status DOWN; it
    reports no identifier as not found. *)
Theorem check_all_exit_code (resource_type : string) (resources : list Resource)
    (skip : option (gset string)) (select : option (gmap string string)) :
  resource_type ∉ RESOURCES_BY_EXISTENCE →
  (exit_code (check_results resource_type resources ∅ skip select true)
   = NAGIOS_STATUS_OK
   ↔ ∀ resource, resource ∈ _resource_filter resources ∅ skip true select →
       getattr resource "status" (PyStr "UNKNOWN") = PyStr "ACTIVE")
  ∧ (exit_code (check_results resource_type resources ∅ skip select true)
     = NAGIOS_STATUS_CRITICAL
     ↔ ∃ resource, resource ∈ _resource_filter resources ∅ skip true select
         ∧ getattr resource "status" (PyStr "UNKNOWN") = PyStr "DOWN")
  ∧ not_found (check_results resource_type resources ∅ skip select true) = [].
Proof.
  intros Hty.
  assert (Hcalls : check_calls resource_type resources ∅ skip select true
    = resource_call resource_type <$> _resource_filter resources ∅ skip true select).
  { unfold check_calls. by rewrite elements_empty, app_nil_r. }
  rewrite check_results_calls.
  destruct (add_results_exit_code_buckets
              (check_calls resource_type resources ∅ skip select true)) as [Hok Hcritical].
  rewrite Hok, Hcritical, Hcalls. split_and!.
  - split.
    + intros Hall resource Hres.
      apply (call_bucket_by_status resource_type resource Hty).
      by apply Hall, list_elem_of_fmap_2.
    + intros Hall c (resource & -> & Hres)%list_elem_of_fmap.
      by apply (call_bucket_by_status resource_type resource Hty), Hall.
  - split.
    + intros (c & (resource & -> & Hres)%list_elem_of_fmap & [Hb | Hb]).
      * exists resource. split; [done|].
        by apply (call_bucket_by_status resource_type resource Hty).
      * by apply (call_bucket_by_status resource_type resource Hty) in Hb.
    + intros (resource & Hres & Hdown).
      exists (resource_call resource_type resource).
      split; [by apply list_elem_of_fmap_2|]. left.
      by apply (call_bucket_by_status resource_type resource Hty).
  - rewrite <-Hcalls, <-check_results_calls, check_results_not_found.
    by rewrite elements_empty.
Qed.

Lemma check_all_exit_code_witness :
  exit_code (check_results "port" ports_x_y ∅ None None true) = NAGIOS_STATUS_CRITICAL.
Proof.
  assert (Hty : "port" ∉ RESOURCES_BY_EXISTENCE).
  { apply (bool_decide_unpack _). vm_compute. exact I. }
  apply (proj1 (proj2 (check_all_exit_code "port" ports_x_y None None Hty))).
  exists (mk_resource "x" [("status", PyStr "DOWN")]). split.
  - vm_compute. constructor.
  - reflexivity.
Defined.

(** X18: for an existence-only resource type, a run with explicit
    identifiers is OK exactly when the cloud enumerates every requested
    identifier, and CRITICAL exactly when it misses one; it is never
    WARNING. *)
Theorem check_existence_exit_code (resource_type : string) (resources : list Resource)
    (ids : gset string) (skip : option (gset string))
    (select : option (gmap string string)) :
  resource_type ∈ RESOURCES_BY_EXISTENCE →
  (exit_code (check_results resource_type resources ids skip select false)
   = NAGIOS_STATUS_OK
   ↔ ∀ id_, id_ ∈ ids → id_ ∈ resource_id <$> resources)
  ∧ (exit_code (check_results resource_type resources ids skip select false)
     = NAGIOS_STATUS_CRITICAL
     ↔ ∃ id_, id_ ∈ ids ∧ id_ ∉ resource_id <$> resources)
  ∧ exit_code (check_results resource_type resources ids skip select false)
    ≠ NAGIOS_STATUS_WARNING.
Proof.
  intros Hty.
  assert (Hchecked : ∀ id_, id_ ∈ ids →
    (id_ ∈ resource_id <$> _resource_filter resources ids skip false select
     ↔ id_ ∈ resource_id <$> resources)).
  { intros id_ Hid. rewrite _resource_filter_explicit, fmap_filter_ids.
    rewrite list_elem_of_filter. tauto. }
  rewrite check_results_calls.
  destruct (add_results_exit_code_buckets
              (check_calls resource_type resources ids skip select false))
    as [Hok Hcritical].
  assert (Hbuckets : ∀ c,
    c ∈ check_calls resource_type resources ids skip select false →
    call_bucket c = BOk
    ∨ call_bucket c = BNotFound
      ∧ ∃ id_, id_ ∈ ids ∧ id_ ∉ resource_id <$> resources).
  { intros c [Hc | Hc]%elem_of_app.
    - apply list_elem_of_fmap in Hc as (resource & -> & _).
      left. by apply call_bucket_existence.
    - apply list_elem_of_fmap in Hc as (id_ & -> & [Hunchecked Hid]%list_elem_of_filter).
      right. split; [done|]. apply elem_of_elements in Hid.
      exists id_. split; [done|]. by rewrite <-Hchecked. }
  assert (Hmissing : ∀ id_, id_ ∈ ids → id_ ∉ resource_id <$> resources →
    id_call resource_type id_
      ∈ check_calls resource_type resources ids skip select false).
  { intros id_ Hid Hnot. apply elem_of_app. right. apply list_elem_of_fmap_2.
    apply list_elem_of_filter. split; [by rewrite Hchecked | by apply elem_of_elements]. }
  assert (Hok' : exit_code (add_results Results_init
        (check_calls resource_type resources ids skip select false)) = NAGIOS_STATUS_OK
      ↔ ∀ id_, id_ ∈ ids → id_ ∈ resource_id <$> resources).
  { rewrite Hok. split.
    - intros Hall id_ Hid.
      destruct (decide (id_ ∈ resource_id <$> resources)) as [|Hnot]; [done|].
      by specialize (Hall _ (Hmissing id_ Hid Hnot)).
    - intros Hall c Hc. destruct (Hbuckets c Hc) as [? | [_ (id_ & Hid & Hnot)]]; [done|].
      by specialize (Hall id_ Hid). }
  assert (Hcritical' : exit_code (add_results Results_init
        (check_calls resource_type resources ids skip select false))
        = NAGIOS_STATUS_CRITICAL
      ↔ ∃ id_, id_ ∈ ids ∧ id_ ∉ resource_id <$> resources).
  { rewrite Hcritical. split.
    - intros (c & Hc & Hb). destruct (Hbuckets c Hc) as [Hbok | [_ ?]]; [|done].
      rewrite Hbok in Hb. by destruct Hb.
    - intros (id_ & Hid & Hnot). exists (id_call resource_type id_).
      split; [by apply Hmissing | by right]. }
  split_and!; [done | done |].
  rewrite add_results_exit_code. simpl. intros Hwarning.
  destruct (max_severity_attained
              (entry_of_call <$> check_calls resource_type resources ids skip select false))
    as [Hzero | (e & (c & -> & Hc)%list_elem_of_fmap & Hattained)].
  - unfold max_severity, NAGIOS_STATUS_OK in Hzero. rewrite Hzero in Hwarning.
    discriminate.
  - unfold max_severity, NAGIOS_STATUS_OK in Hattained.
    rewrite Hwarning, entry_of_call_bucket in Hattained.
    destruct (Hbuckets c Hc) as [Hb | [Hb _]]; rewrite Hb in Hattained; discriminate.
Qed.

Lemma check_existence_exit_code_witness :
  exit_code (check_results "subnet" [subnet_with_status] {["s1"; "s2"]} None None false)
  = NAGIOS_STATUS_CRITICAL.
Proof.
  assert (Hty : "subnet" ∈ RESOURCES_BY_EXISTENCE).
  { apply (bool_decide_unpack _). vm_compute. exact I. }
  apply (proj1 (proj2 (check_existence_exit_code "subnet" [subnet_with_status]
                         {["s1"; "s2"]} None None Hty))).
  exists "s2". split; apply (bool_decide_unpack _); vm_compute; exact I.
Defined.
